(** * Lifeband_MAA: firmware header generators and the Blender PBR script

  A shallow embedding of the three Python scripts of the repository:

  - [firmware/simple_gen.py]               (module [SimpleGen]),
  - [firmware/generate_tflite_models.py]   (module [TfliteModels]),
  - [scripts/setup_pbr_textures.py]        (module [PbrTextures]).

  Python [str] values are modelled as [string], the bytes of the text in
  UTF-8.  The names written in the scripts are ASCII; [lower] and [upper]
  are [str.lower] and [str.upper] on ASCII text, where they change the
  letters A-Z and a-z only.  On other text Python folds by the Unicode
  tables, which are not part of the scripts: where a statement is about
  every mesh name, the fold is a parameter ([match_mesh_name_with]).  A
  [bytearray] is a [list byte].  A file opened for writing is the
  text written so far; [f.write(s)] appends [s] to it.  The Blender session
  is an explicit world (scene objects, mesh data-blocks, images, materials,
  output trace) threaded through an exception monad. *)

From Stdlib Require Import ZArith NArith List String Ascii Strings.Byte Lia.
From stdpp Require Import base option list gmap strings pretty.

Open Scope string_scope.
Open Scope list_scope.

(** ** Python string and bytes primitives *)

Module PyStr.

(** The line feed written as a backslash-n escape in the sources. *)
Definition nl : string := String "010"%char "".

Definition is_upper (c : ascii) : bool :=
  let n := nat_of_ascii c in (65 <=? n)%nat && (n <=? 90)%nat.

Definition is_lower (c : ascii) : bool :=
  let n := nat_of_ascii c in (97 <=? n)%nat && (n <=? 122)%nat.

Definition lower_char (c : ascii) : ascii :=
  if is_upper c then ascii_of_nat (nat_of_ascii c + 32) else c.

Definition upper_char (c : ascii) : ascii :=
  if is_lower c then ascii_of_nat (nat_of_ascii c - 32) else c.

(** [s.lower()] on ASCII text: the letters A-Z are folded, every other
    character is kept. *)
Fixpoint lower (s : string) : string :=
  match s with
  | EmptyString => EmptyString
  | String c s' => String (lower_char c) (lower s')
  end.

(** [s.upper()] on ASCII text: the letters a-z are folded, every other
    character is kept. *)
Fixpoint upper (s : string) : string :=
  match s with
  | EmptyString => EmptyString
  | String c s' => String (upper_char c) (upper s')
  end.

(** [s.startswith(p)] *)
Fixpoint startswith (p s : string) : bool :=
  match p, s with
  | EmptyString, _ => true
  | String _ _, EmptyString => false
  | String a p', String b s' => Ascii.eqb a b && startswith p' s'
  end.

(** [p in s]: [p] occurs in [s] at some offset. *)
Fixpoint contains (p s : string) : bool :=
  startswith p s ||
  match s with
  | EmptyString => false
  | String _ s' => contains p s'
  end.

(** [s * n] *)
Fixpoint repeat_str (s : string) (n : nat) : string :=
  match n with
  | O => ""
  | S n' => s +:+ repeat_str s n'
  end.

(** [str(n)] for a non-negative integer. *)
Definition str_of_nat (n : nat) : string := pretty (N.of_nat n).

(** The lower-case hexadecimal digit of a value below 16. *)
Definition hex_digit (n : N) : ascii :=
  if (n <? 10)%N then ascii_of_N (48 + n) else ascii_of_N (87 + n).

(** The format [{byte:02x}] for a byte: two lower-case hexadecimal digits. *)
Definition format_02x (b : byte) : string :=
  let n := Byte.to_N b in
  String (hex_digit (n / 16)) (String (hex_digit (n mod 16)) "").

(** [b'...'] for an ASCII literal. *)
Definition bytes_of_string (s : string) : list byte :=
  map byte_of_ascii (list_ascii_of_string s).

Definition is_hex_digit (c : ascii) : bool :=
  let n := nat_of_ascii c in
  ((48 <=? n)%nat && (n <=? 57)%nat) || ((97 <=? n)%nat && (n <=? 102)%nat).

(** Does the text start with a byte literal [0xhh]? *)
Definition starts_hex_literal (s : string) : bool :=
  match s with
  | String c0 s1 =>
      Ascii.eqb c0 "0" &&
      match s1 with
      | String c1 s2 =>
          Ascii.eqb c1 "x" &&
          match s2 with
          | String h s3 =>
              is_hex_digit h &&
              match s3 with
              | String l _ => is_hex_digit l
              | EmptyString => false
              end
          | EmptyString => false
          end
      | EmptyString => false
      end
  | EmptyString => false
  end.

(** The number of byte literals [0xhh] in a text. *)
Fixpoint count_hex_literals (s : string) : nat :=
  match s with
  | EmptyString => 0
  | String _ s' =>
      (if starts_hex_literal s then 1 else 0) + count_hex_literals s'
  end.

(** The layout of a stub model: the tag TFL3, then zero bytes only. *)
Definition has_stub_layout (data : list byte) : Prop :=
  take 4 data = [x54; x46; x4c; x33] /\
  forall i b, (4 <= i)%nat -> data !! i = Some b -> b = x00.

(** The text does not start with the letter x. *)
Definition not_x (s : string) : Prop :=
  match s with
  | String c _ => Ascii.eqb c "x" = false
  | EmptyString => True
  end.

Definition hex_value (c : ascii) : option N :=
  let n := N_of_ascii c in
  if ((48 <=? n) && (n <=? 57))%N then Some (n - 48)%N
  else if ((97 <=? n) && (n <=? 102))%N then Some (n - 87)%N
  else None.

(** Reading a text back: the bytes denoted by its literals [0xhh], in
    order; everything else is skipped. *)
Fixpoint parse_hex_literals (s : string) : list byte :=
  match s with
  | EmptyString => []
  | String c0 s1 =>
      match s1 with
      | String c1 (String h (String l rest)) =>
          match (if Ascii.eqb c0 "0" && Ascii.eqb c1 "x"
                 then match hex_value h, hex_value l with
                      | Some a, Some b => Byte.of_N (16 * a + b)
                      | _, _ => None
                      end
                 else None) with
          | Some b => b :: parse_hex_literals rest
          | None => parse_hex_literals s1
          end
      | _ => parse_hex_literals s1
      end
  end.

(** *** Notions used to state further properties *)

(** [c in s] for a character. *)
Fixpoint mem_char (c : ascii) (s : string) : bool :=
  match s with
  | EmptyString => false
  | String a s' => Ascii.eqb c a || mem_char c s'
  end.

(** No character of [s] occurs in [k]. *)
Fixpoint disjoint_chars (k s : string) : bool :=
  match s with
  | EmptyString => true
  | String c s' => negb (mem_char c k) && disjoint_chars k s'
  end.

(** A digit or a dot: the characters of the suffix (.001, .002, ...) that
    Blender appends to the name of a duplicate. *)
Definition is_suffix_char (c : ascii) : bool :=
  let n := nat_of_ascii c in
  ((48 <=? n)%nat && (n <=? 57)%nat) || (n =? 46)%nat.

Fixpoint all_chars (p : ascii -> bool) (s : string) : bool :=
  match s with
  | EmptyString => true
  | String c s' => p c && all_chars p s'
  end.

(** [s.count(c)] for a character. *)
Fixpoint count_char (c : ascii) (s : string) : nat :=
  match s with
  | EmptyString => 0
  | String a s' => (if Ascii.eqb a c then 1 else 0) + count_char c s'
  end.

(** A character of ASCII text. *)
Definition is_ascii (c : ascii) : bool := (nat_of_ascii c <? 128)%nat.

(** [s.isascii()] *)
Definition ascii_text (s : string) : bool := all_chars is_ascii s.

(** The same character, or the two cases of one of the letters A-Z. *)
Definition same_letter (c d : ascii) : bool :=
  Ascii.eqb c d ||
  (is_upper c && (nat_of_ascii d =? nat_of_ascii c + 32)%nat) ||
  (is_upper d && (nat_of_ascii c =? nat_of_ascii d + 32)%nat).

(** Two texts that differ in the case of their letters only. *)
Fixpoint same_letters (s t : string) : bool :=
  match s, t with
  | EmptyString, EmptyString => true
  | String c s', String d t' => same_letter c d && same_letters s' t'
  | _, _ => false
  end.

(** The 256 characters. *)
Definition all_ascii : list ascii := map ascii_of_nat (seq 0 256).

(** A sample fold beyond ASCII: [lower] on ASCII characters, and the Kelvin
    sign (U+212A, the bytes E2 84 AA) folded to k as [str.lower] folds it;
    any other character is kept. *)
Fixpoint lower_kelvin (s : string) : string :=
  match s with
  | EmptyString => EmptyString
  | String c s' =>
      if is_ascii c then String (lower_char c) (lower_kelvin s')
      else
        match c, s' with
        | "226"%char, String "132"%char (String "170"%char s'') =>
            String "k"%char (lower_kelvin s'')
        | _, _ => String c (lower_kelvin s')
        end
  end.

(** The name sKin written with the Kelvin sign. *)
Definition kelvin_skin : string :=
  String "s" (String "226" (String "132" (String "170" "in"))).

End PyStr.

(** ** firmware/simple_gen.py *)

Module SimpleGen.
Import PyStr.

(** [f.write(s)] on the text written so far. *)
Definition write (s : string) (f : string) : string := f +:+ s.

(** Lines 16-18: the buffer does not depend on the model. *)
Definition model_data : list byte :=
  bytes_of_string "TFL3" ++ replicate 1020 x00.

(** Lines 29-36: [for i, byte in enumerate(model_data)], from index [i] on;
    [n] is [len(model_data)]. *)
Fixpoint write_bytes (n i : nat) (data : list byte) (f : string) : string :=
  match data with
  | [] => f
  | b :: rest =>
      let f := write ("0x" +:+ format_02x b) f in
      let f :=
        if (i <? n - 1)%nat then
          let f := write "," f in
          if ((i + 1) mod 16 =? 0)%nat then write (nl +:+ "  ") f
          else write " " f
        else f in
      write_bytes n (S i) rest f
  end.

(** The initializer of the array: what the loop writes for the buffer. *)
Definition array_text : string :=
  write_bytes (length model_data) 0 model_data "".

Definition header_path (model_name : string) : string :=
  "models_h/" +:+ model_name +:+ ".h".

Definition guard_of (model_name : string) : string :=
  upper model_name +:+ "_H".

(** Lines 20-39: the text written to the header file. *)
Definition header_text (model_name description : string) : string :=
  let guard := guard_of model_name in
  let f := "" in
  let f := write ("#ifndef " +:+ guard +:+ nl) f in
  let f := write ("#define " +:+ guard +:+ nl +:+ nl) f in
  let f := write ("// Model: " +:+ description +:+ nl) f in
  let f := write ("// NOTE: Placeholder - firmware uses rule-based AI"
                  +:+ nl +:+ nl) f in
  let f := write "const unsigned char " f in
  let f := write (model_name +:+ "_tflite[] ") f in
  let f := write ("__attribute__((aligned(16))) = {" +:+ nl +:+ "  ") f in
  let f := write_bytes (length model_data) 0 model_data f in
  let f := write (nl +:+ "};" +:+ nl +:+ nl) f in
  let f := write ("const unsigned int " +:+ model_name +:+ "_tflite_len = "
                  +:+ str_of_nat (length model_data) +:+ ";" +:+ nl +:+ nl) f in
  let f := write ("#endif // " +:+ guard +:+ nl) f in
  f.

(** What one call leaves behind: the file written and the value returned
    (the progress messages printed to the console are left out). *)
Record generated := {
  gen_path : string;
  gen_text : string;
  gen_data : list byte;
  gen_return : nat
}.

Definition generate_c_header (model_name description : string) : generated :=
  {| gen_path := header_path model_name;
     gen_text := header_text model_name description;
     gen_data := model_data;
     gen_return := length model_data |}.

(** Lines 43-47: the three calls of the script, in order. *)
Definition script : list generated :=
  [ generate_c_header "arrhythmia_risk_model" "Arrhythmia Detection";
    generate_c_header "anemia_risk_model" "Anemia Risk Assessment";
    generate_c_header "preeclampsia_risk_model" "Preeclampsia Detection" ].

(** The pieces of the header, in the order they are written. *)
Definition guard_open (guard : string) : string :=
  "#ifndef " +:+ guard +:+ nl +:+ "#define " +:+ guard +:+ nl +:+ nl.

Definition comment_lines (description : string) : string :=
  "// Model: " +:+ description +:+ nl +:+
  "// NOTE: Placeholder - firmware uses rule-based AI" +:+ nl +:+ nl.

Definition array_open (model_name : string) : string :=
  "const unsigned char " +:+ model_name +:+ "_tflite[] " +:+
  "__attribute__((aligned(16))) = {" +:+ nl +:+ "  ".

Definition array_close : string := nl +:+ "};" +:+ nl +:+ nl.

Definition len_decl (model_name : string) (n : nat) : string :=
  "const unsigned int " +:+ model_name +:+ "_tflite_len = " +:+
  str_of_nat n +:+ ";" +:+ nl +:+ nl.

Definition guard_close (guard : string) : string :=
  "#endif // " +:+ guard +:+ nl.

End SimpleGen.

(** ** firmware/generate_tflite_models.py *)

Module TfliteModels.
Import PyStr.

(** Lines 38-55. *)
Definition generate_minimal_tflite_stub (input_size output_size : Z)
  : list byte :=
  let header := bytes_of_string "TFL3" in
  let model_data := [] in
  let model_data := model_data ++ header in
  let model_data := model_data ++ replicate 1000 x00 in
  model_data.

(** Lines 61-63. *)
Definition arrhythmia_model := generate_minimal_tflite_stub 5 5.
Definition anemia_model := generate_minimal_tflite_stub 5 4.
Definition preeclampsia_model := generate_minimal_tflite_stub 5 4.

Definition script : list (list byte) :=
  [arrhythmia_model; anemia_model; preeclampsia_model].

End TfliteModels.

(** ** scripts/setup_pbr_textures.py *)

Module PbrTextures.
Import PyStr.

(** *** Configuration (lines 32-99) *)

Definition INPUT_GLB : string := "assets/motherandbaby3dmodel.glb".
Definition OUTPUT_GLB : string := "assets/motherandbaby3dmodel_pbr.glb".
Definition TEXTURE_DIR : string := "textures_pbr".

(** A Python dict keeps its insertion order; the tables are association
    lists in declaration order.  A float literal is kept as its value in
    thousandths. *)
Definition dict (V : Type) : Type := list (string * V).

Definition milli : Type := N.
Definition rgb : Type := (milli * milli * milli)%type.

Definition COLORS : dict rgb :=
  [ ("saree", (784, 200, 227));
    ("hair", (51, 51, 51));
    ("mother_skin", (902, 702, 541));
    ("baby_skin", (941, 784, 639));
    ("baby_hair", (100, 100, 100));
    ("base", (965, 843, 690)) ]%N.

Definition ROUGHNESS : dict milli :=
  [ ("saree", 600); ("hair", 250); ("mother_skin", 450);
    ("baby_skin", 350); ("baby_hair", 500); ("base", 700) ]%N.

Definition METALLIC : dict milli :=
  [ ("saree", 0); ("hair", 100); ("mother_skin", 0);
    ("baby_skin", 0); ("baby_hair", 50); ("base", 0) ]%N.

Definition MESH_MATERIAL_MAP : dict string :=
  [ ("saree", "saree");
    ("Saree", "saree");
    ("cloth", "saree");
    ("Cloth", "saree");
    ("garment", "saree");

    ("hair", "hair");
    ("Hair", "hair");
    ("head_hair", "hair");
    ("mother_hair", "hair");

    ("mother_skin", "mother_skin");
    ("Mother_Skin", "mother_skin");
    ("skin", "mother_skin");
    ("Skin", "mother_skin");
    ("body", "mother_skin");
    ("face", "mother_skin");

    ("baby_skin", "baby_skin");
    ("Baby_Skin", "baby_skin");
    ("baby_body", "baby_skin");

    ("baby_hair", "baby_hair");
    ("Baby_Hair", "baby_hair");
    ("baby_head", "baby_hair");

    ("base", "base");
    ("Base", "base");
    ("pedestal", "base");
    ("Pedestal", "base");
    ("stand", "base") ].

(** *** Dict operations *)

(** [d.get(k)] *)
Fixpoint dict_get {V : Type} (d : dict V) (k : string) : option V :=
  match d with
  | [] => None
  | (k', v) :: d' => if String.eqb k' k then Some v else dict_get d' k
  end.

(** [k in d] *)
Definition dict_mem {V : Type} (k : string) (d : dict V) : bool :=
  match dict_get d k with Some _ => true | None => false end.

(** [d[k] = v]: an existing key keeps its place, a new one goes last. *)
Fixpoint dict_set {V : Type} (d : dict V) (k : string) (v : V) : dict V :=
  match d with
  | [] => [(k, v)]
  | (k', v') :: d' =>
      if String.eqb k' k then (k, v) :: d' else (k', v') :: dict_set d' k v
  end.

(** [d.keys()] *)
Definition keys {V : Type} (d : dict V) : list string := map fst d.

(** Truth value of a [str]: the empty string is false. *)
Definition truthy (s : string) : bool :=
  match s with EmptyString => false | String _ _ => true end.

(** *** The mesh-name matcher (lines 283-288)

    The inner [for mesh_name, mtype in MESH_MATERIAL_MAP.items()] loop
    with its [break]; [None] is the initial [mat_type = None]. *)
Fixpoint match_mesh_name (table : dict string) (obj_name : string)
  : option string :=
  match table with
  | [] => None
  | (mesh_name, mtype) :: rest =>
      if contains (lower mesh_name) (lower obj_name) then Some mtype
      else match_mesh_name rest obj_name
  end.

(** The same loop with the fold of [str.lower] as a parameter.  On ASCII
    text the fold is [lower]; on a name with other characters it is the
    fold of the interpreter (the Kelvin sign folds to k, for one).  The
    test [in] on two texts is [contains] on their UTF-8 bytes: an encoded
    text occurs in another one at character boundaries only. *)
Fixpoint match_mesh_name_with (str_lower : string -> string)
  (table : dict string) (obj_name : string) : option string :=
  match table with
  | [] => None
  | (mesh_name, mtype) :: rest =>
      if contains (str_lower mesh_name) (str_lower obj_name) then Some mtype
      else match_mesh_name_with str_lower rest obj_name
  end.

(** *** Blender data *)

Inductive pixel_fill :=
| SolidColor (color : rgb)
| NormalNoise (strength : milli)
| RoughnessNoise (base_roughness variation : milli).

Record image := {
  img_name : string;
  img_width : N;
  img_height : N;
  img_fill : pixel_fill
}.

Inductive node :=
| BsdfPrincipled (base_color : rgb) (alpha roughness metallic : milli)
| OutputMaterial
| TexImage (img : image) (colorspace : string)
| NormalMap (strength : milli).

Record link := {
  from_node : nat; from_socket : string;
  to_node : nat; to_socket : string
}.

Record material := {
  mat_name : string;
  use_nodes : bool;
  blend_method : string;
  nodes : list node;
  links : list link
}.

(** A scene object.  [obj.data] is a reference to a data-block; several
    objects may refer to the same one (linked duplicates, instances of one
    glTF mesh).  Data-blocks of different kinds live in different
    collections, so a reference is the pair of the object's type and an
    identifier. *)
Record object := {
  obj_name : string;
  obj_type : string;
  obj_data : N
}.

Definition data_ref (o : object) : string * N := (obj_type o, obj_data o).

(** *** The session: library calls, trace, world *)

Inductive call :=
| SelectAll (action : string)
| ObjectDelete (use_global : bool)
| PathExists (path : string)
| ImportGltf (filepath : string) (import_materials : bool)
| Makedirs (path : string) (exist_ok : bool)
| ImagesNew (name : string) (width height : N)
| MaterialsNew (name : string)
| SlotsClear (data : string * N)
| SlotsAppend (data : string * N) (mat : string)
| ExportGltf (filepath : string).

Inductive event :=
| Printed (text : string)
| Called (c : call)
| Traceback.

Record world := {
  objects : list object;
  data_materials : gmap (string * N) (list material);
  images : list image;
  materials_db : list material;
  trace : list event
}.

(** What the script cannot decide: the file system, the content of the
    GLB file, which objects of the scene the select-and-delete leaves behind
    (the hidden and the unselectable ones), and which library call raises
    (given the trace so far). *)
Record env := {
  path_exists : string -> bool;
  survives : object -> bool;
  glb_objects : list object;
  glb_data : gmap (string * N) (list material);
  abspath : string -> string;
  fault : list event -> call -> option string
}.

Inductive outcome (A : Type) :=
| Returned (a : A)
| Raised (msg : string).
Arguments Returned {A} a.
Arguments Raised {A} msg.

Definition M (A : Type) : Type := env -> world -> outcome A * world.

#[global] Instance M_ret : MRet M := fun A a _ w => (Returned a, w).

#[global] Instance M_bind : MBind M := fun A B k m e w =>
  match m e w with
  | (Returned a, w') => k a e w'
  | (Raised msg, w') => (Raised msg, w')
  end.

Definition log (ev : event) (w : world) : world :=
  {| objects := objects w; data_materials := data_materials w;
     images := images w; materials_db := materials_db w;
     trace := trace w ++ [ev] |}.

Definition print (s : string) : M unit :=
  fun _ w => (Returned tt, log (Printed s) w).

(** A library call is attempted (and traced), then returns or raises. *)
Definition lib (c : call) : M unit :=
  fun e w =>
    match fault e (trace w) c with
    | Some msg => (Raised msg, log (Called c) w)
    | None => (Returned tt, log (Called c) w)
    end.

Definition ask {A : Type} (f : env -> A) : M A :=
  fun e w => (Returned (f e), w).

Definition modify (f : world -> world) : M unit :=
  fun _ w => (Returned tt, f w).

Definition raise {A : Type} (msg : string) : M A :=
  fun _ w => (Raised msg, w).

(** [d[k]]: a missing key raises KeyError. *)
Definition dict_index {V : Type} (d : dict V) (k : string) : M V :=
  match dict_get d k with
  | Some v => mret v
  | None => raise ("'" +:+ k +:+ "'")
  end.

(** [for x in l: body], threading the locals [s] the body rebinds. *)
Fixpoint for_fold {A S : Type} (l : list A) (body : S -> A -> M S) (s : S)
  : M S :=
  match l with
  | [] => mret s
  | x :: l' => s' ← body s x; for_fold l' body s'
  end.

Fixpoint for_each {A : Type} (l : list A) (body : A -> M unit) : M unit :=
  match l with
  | [] => mret tt
  | x :: l' => body x;; for_each l' body
  end.

(** *** World updates behind the library calls *)

Definition set_objects (l : list object) (w : world) : world :=
  {| objects := l; data_materials := data_materials w;
     images := images w; materials_db := materials_db w;
     trace := trace w |}.

Definition set_data (d : gmap (string * N) (list material)) (w : world)
  : world :=
  {| objects := objects w; data_materials := d;
     images := images w; materials_db := materials_db w;
     trace := trace w |}.

Definition add_image (img : image) (w : world) : world :=
  {| objects := objects w; data_materials := data_materials w;
     images := images w ++ [img]; materials_db := materials_db w;
     trace := trace w |}.

Definition add_material (m : material) (w : world) : world :=
  {| objects := objects w; data_materials := data_materials w;
     images := images w; materials_db := materials_db w ++ [m];
     trace := trace w |}.

(** [obj.data.materials] as a list; a data-block without an entry has no
    slots. *)
Definition slots_of (d : gmap (string * N) (list material)) (o : object)
  : list material :=
  default [] (d !! data_ref o).

Definition slots (w : world) (o : object) : list material :=
  slots_of (data_materials w) o.

(** [bpy.ops.object.select_all(action=...)] *)
Definition select_all (action : string) : M unit := lib (SelectAll action).

(** [bpy.ops.object.delete(use_global=...)] after [select_all]: the objects
    that were selected leave the scene, their data-blocks stay behind; an
    object that could not be selected stays in [bpy.data.objects]. *)
Definition object_delete (use_global : bool) : M unit :=
  lib (ObjectDelete use_global);;
  keep ← ask survives;
  modify (fun w => set_objects (List.filter keep (objects w)) w).

(** [os.path.exists(path)] *)
Definition os_path_exists (path : string) : M bool :=
  lib (PathExists path);; ask (fun e => path_exists e path).

(** [bpy.ops.import_scene.gltf(filepath=..., import_materials=...)] *)
Definition import_gltf (filepath : string) (import_materials : bool)
  : M unit :=
  lib (ImportGltf filepath import_materials);;
  objs ← ask glb_objects;
  data ← ask glb_data;
  modify (fun w => set_data (data ∪ data_materials w)
                            (set_objects (objects w ++ objs) w)).

(** [os.makedirs(path, exist_ok=...)] *)
Definition os_makedirs (path : string) (exist_ok : bool) : M unit :=
  lib (Makedirs path exist_ok).

(** [bpy.data.images.new(name=, width=, height=)] followed by the
    assignment of the pixel buffer.  The image carries the requested name,
    as it does in a session that holds no image of that name (Blender
    renames a clash). *)
Definition images_new (name : string) (width height : N) (fill : pixel_fill)
  : M image :=
  lib (ImagesNew name width height);;
  let img := {| img_name := name; img_width := width; img_height := height;
                img_fill := fill |} in
  modify (add_image img);;
  mret img.

(** [obj.data.materials.clear()] *)
Definition slots_clear (o : object) : M unit :=
  lib (SlotsClear (data_ref o));;
  modify (fun w => set_data (<[data_ref o := []]> (data_materials w)) w).

(** [obj.data.materials.append(m)] *)
Definition slots_append (o : object) (m : material) : M unit :=
  lib (SlotsAppend (data_ref o) (mat_name m));;
  modify (fun w =>
    set_data (<[data_ref o := slots w o ++ [m]]> (data_materials w)) w).

(** [bpy.ops.export_scene.gltf(filepath=..., ...)]; the other keyword
    arguments are constants of the script. *)
Definition export_gltf (filepath : string) : M unit :=
  lib (ExportGltf filepath).

(** *** Texture generation (lines 105-142) *)

Definition create_simple_texture (width height : N) (color_rgb : rgb)
  (name : string) : M image :=
  images_new name width height (SolidColor color_rgb).

Definition create_normal_map (width height : N) (name : string)
  (strength : milli) : M image :=
  images_new name width height (NormalNoise strength).

Definition create_roughness_texture (width height : N) (name : string)
  (base_roughness variation : milli) : M image :=
  images_new name width height (RoughnessNoise base_roughness variation).

(** *** Material creation (lines 149-210) *)

(** The node tree wired after [nodes.clear()]; nodes are numbered in the
    order of their creation. *)
Definition node_tree (base_color : rgb) (roughness metallic : milli)
  (textures_dict : dict image) : list node * list link :=
  let nodes := [BsdfPrincipled base_color 1000%N roughness metallic;
                OutputMaterial] in
  let links := [{| from_node := 0; from_socket := "BSDF";
                   to_node := 1; to_socket := "Surface" |}] in
  let '(nodes, links) :=
    match dict_get textures_dict "basecolor" with
    | Some img =>
        let bc := length nodes in
        (nodes ++ [TexImage img "sRGB"],
         links ++ [{| from_node := bc; from_socket := "Color";
                      to_node := 0; to_socket := "Base Color" |}])
    | None => (nodes, links)
    end in
  let '(nodes, links) :=
    match dict_get textures_dict "normal" with
    | Some img =>
        let n := length nodes in
        let nm := S n in
        (nodes ++ [TexImage img "Non-Color"; NormalMap 800%N],
         links ++ [{| from_node := n; from_socket := "Color";
                      to_node := nm; to_socket := "Color" |};
                   {| from_node := nm; from_socket := "Normal";
                      to_node := 0; to_socket := "Normal" |}])
    | None => (nodes, links)
    end in
  match dict_get textures_dict "roughness" with
  | Some img =>
      let r := length nodes in
      (nodes ++ [TexImage img "Non-Color"],
       links ++ [{| from_node := r; from_socket := "Color";
                    to_node := 0; to_socket := "Roughness" |}])
  | None => (nodes, links)
  end.

(** Lines 163-210: the material object once its node tree is wired. *)
Definition build_material (material_name : string) (base_color : rgb)
  (roughness metallic : milli) (textures_dict : dict image) : material :=
  let tree := node_tree base_color roughness metallic textures_dict in
  {| mat_name := material_name; use_nodes := true; blend_method := "BLEND";
     nodes := fst tree; links := snd tree |}.

(** [bpy.data.materials.new(name=...)] and the wiring.  The material
    carries the requested name, as it does in a session that holds no
    material of that name (Blender renames a clash). *)
Definition create_pbr_material (material_name : string) (base_color : rgb)
  (roughness metallic : milli) (textures_dict : dict image) : M material :=
  lib (MaterialsNew material_name);;
  modify (add_material
            (build_material material_name base_color roughness metallic
               textures_dict));;
  mret (build_material material_name base_color roughness metallic
          textures_dict).

(** *** Main workflow (lines 217-333) *)

Definition gets {A : Type} (f : world -> A) : M A :=
  fun _ w => (Returned (f w), w).

(** Lines 239-253: the textures of one material type, added to the dict. *)
Definition generate_textures_for (textures : dict image) (mat_type : string)
  : M (dict image) :=
  print ("      Generating " +:+ mat_type +:+ " textures...");;
  color ← dict_index COLORS mat_type;
  bc_img ← create_simple_texture 2048 2048 color (mat_type +:+ "_basecolor");
  let textures := dict_set textures (mat_type +:+ "_basecolor") bc_img in
  n_img ← create_normal_map 2048 2048 (mat_type +:+ "_normal") 300%N;
  let textures := dict_set textures (mat_type +:+ "_normal") n_img in
  rough ← dict_index ROUGHNESS mat_type;
  r_img ← create_roughness_texture 2048 2048 (mat_type +:+ "_roughness")
            rough 100%N;
  let textures := dict_set textures (mat_type +:+ "_roughness") r_img in
  mret textures.

(** Lines 258-274: the material of one material type, added to the dict. *)
Definition create_material_for (textures : dict image)
  (materials : dict material) (mat_type : string) : M (dict material) :=
  print ("      Creating material: " +:+ mat_type);;
  bc ← dict_index textures (mat_type +:+ "_basecolor");
  n ← dict_index textures (mat_type +:+ "_normal");
  r ← dict_index textures (mat_type +:+ "_roughness");
  let texture_dict := [("basecolor", bc); ("normal", n); ("roughness", r)] in
  color ← dict_index COLORS mat_type;
  rough ← dict_index ROUGHNESS mat_type;
  metal ← dict_index METALLIC mat_type;
  mat ← create_pbr_material mat_type color rough metal texture_dict;
  mret (dict_set materials mat_type mat).

(** Lines 278-294: the body of [for obj in bpy.data.objects]. *)
Definition assign_object (materials : dict material) (obj : object)
  : M unit :=
  if negb (String.eqb (obj_type obj) "MESH") then mret tt
  else
    let mat_type := match_mesh_name MESH_MATERIAL_MAP (obj_name obj) in
    match mat_type with
    | Some t => print ("      " +:+ obj_name obj +:+ " -> " +:+ t)
    | None => mret tt
    end;;
    match mat_type with
    | Some t =>
        if truthy t && dict_mem t materials then
          slots_clear obj;;
          m ← dict_index materials t;
          slots_append obj m
        else mret tt
    | None => mret tt
    end.

Definition assign_materials (materials : dict material) (objs : list object)
  : M unit :=
  for_each objs (assign_object materials).

(** Lines 231-333: what [main] does once the input file is known to exist. *)
Definition main_after_check : M (option string) :=
  import_gltf INPUT_GLB false;;
  print ("      Imported: " +:+ INPUT_GLB);;
  print (nl +:+ "[2/5] Generating textures...");;
  os_makedirs TEXTURE_DIR true;;
  textures ← for_fold (keys COLORS) generate_textures_for [];
  print (nl +:+ "[3/5] Creating and assigning PBR materials...");;
  materials ← for_fold (keys COLORS) (create_material_for textures) [];
  print (nl +:+ "[4/5] Assigning materials to mesh objects...");;
  objs ← gets objects;
  assign_materials materials objs;;
  print (nl +:+ "[5/5] Exporting GLB with embedded textures...");;
  select_all "SELECT";;
  export_path ← ask (fun e => abspath e OUTPUT_GLB);
  export_gltf export_path;;
  print (nl +:+ "✓ Export complete!");;
  print ("  Output: " +:+ export_path);;
  print ("  All textures embedded in GLB." +:+ nl);;
  print (repeat_str "=" 80);;
  print "VERIFICATION CHECKLIST (open in GLB viewer or engine):";;
  print (repeat_str "=" 80);;
  print "☐ Saree appears deep warm red (#C8333A)";;
  print "☐ Hair appears near-black (#0d0d0d) with subtle shine";;
  print "☐ Mother skin appears warm medium tone (#E6B38A)";;
  print "☐ Baby skin appears lighter warm (#F0C8A3)";;
  print "☐ Baby hair appears dark with texture";;
  print "☐ Base/pedestal appears light warm (#F6D7B0)";;
  print "☐ Normal maps show subtle surface detail (not too intense)";;
  print "☐ No external image references (all embedded)";;
  print ("☐ Model renders correctly in three.js / Babylon.js / Cesium" +:+ nl);;
  mret (Some export_path).

(** Lines 217-229, then the rest; the early [return] yields [None]. *)
Definition main : M (option string) :=
  print (nl +:+ repeat_str "=" 80);;
  print "PBR MATERIAL SETUP FOR MOTHER & BABY 3D MODEL";;
  print (repeat_str "=" 80 +:+ nl);;
  print "[1/5] Importing GLB model...";;
  select_all "SELECT";;
  object_delete false;;
  found ← os_path_exists INPUT_GLB;
  if negb found then
    print ("ERROR: Input file not found: " +:+ INPUT_GLB);;
    mret None
  else main_after_check.

(** [traceback.print_exc()] *)
Definition print_exc : M unit :=
  fun _ w => (Returned tt, log Traceback w).

(** Lines 336-343: the [try]/[except Exception] around [main]. *)
Definition script : M unit :=
  fun e w =>
    match main e w with
    | (Returned result, w') => print "SUCCESS: PBR setup complete." e w'
    | (Raised msg, w') => (print ("ERROR: " +:+ msg);; print_exc) e w'
    end.

(** *** Notions used to state the properties *)

(** The scene after the clearing and the import of lines 223-232: the
    objects the delete left behind, then the objects of the GLB file. *)
Definition scene_of (e : env) (w : world) : list object :=
  List.filter (survives e) (objects w) ++ glb_objects e.


(** The material the assignment loop picks for an object, if any: the
    condition of lines 279 and 290 and the value of line 294. *)
Definition selected_material (materials : dict material) (o : object)
  : option material :=
  if String.eqb (obj_type o) "MESH" then
    match match_mesh_name MESH_MATERIAL_MAP (obj_name o) with
    | Some t => if truthy t then dict_get materials t else None
    | None => None
    end
  else None.

(** The same choice with the fold of [str.lower] as a parameter. *)
Definition selected_material_with (str_lower : string -> string)
  (materials : dict material) (o : object) : option material :=
  if String.eqb (obj_type o) "MESH" then
    match match_mesh_name_with str_lower MESH_MATERIAL_MAP (obj_name o) with
    | Some t => if truthy t then dict_get materials t else None
    | None => None
    end
  else None.

(** The three images generated for a material type (lines 244-252). *)
Definition texture_images (mat_type : string) : list image :=
  match dict_get COLORS mat_type, dict_get ROUGHNESS mat_type with
  | Some color, Some rough =>
      [ {| img_name := mat_type +:+ "_basecolor"; img_width := 2048;
           img_height := 2048; img_fill := SolidColor color |};
        {| img_name := mat_type +:+ "_normal"; img_width := 2048;
           img_height := 2048; img_fill := NormalNoise 300%N |};
        {| img_name := mat_type +:+ "_roughness"; img_width := 2048;
           img_height := 2048; img_fill := RoughnessNoise rough 100%N |} ]
  | _, _ => []
  end.

Definition image_call (img : image) : call :=
  ImagesNew (img_name img) (img_width img) (img_height img).

(** The dict [textures] after the images are stored under their names. *)
Definition add_textures (textures : dict image) (imgs : list image)
  : dict image :=
  fold_left (fun d img => dict_set d (img_name img) img) imgs textures.

Definition pbr_textures : dict image :=
  fold_left (fun d t => add_textures d (texture_images t)) (keys COLORS) [].

(** The material created for a material type from a dict of textures
    (lines 261-273). *)
Definition pbr_material (textures : dict image) (mat_type : string)
  : option material :=
  bc ← dict_get textures (mat_type +:+ "_basecolor");
  n ← dict_get textures (mat_type +:+ "_normal");
  r ← dict_get textures (mat_type +:+ "_roughness");
  color ← dict_get COLORS mat_type;
  rough ← dict_get ROUGHNESS mat_type;
  metal ← dict_get METALLIC mat_type;
  Some (build_material mat_type color rough metal
          [("basecolor", bc); ("normal", n); ("roughness", r)]).

Definition add_pbr_material (textures : dict image)
  (materials : dict material) (mat_type : string) : dict material :=
  match pbr_material textures mat_type with
  | Some m => dict_set materials mat_type m
  | None => materials
  end.

(** The dict [materials] that [main] hands to the assignment loop. *)
Definition pbr_materials : dict material :=
  fold_left (add_pbr_material pbr_textures) (keys COLORS) [].

(** What the assignment loop traces for one object. *)
Definition assign_events (materials : dict material) (o : object)
  : list event :=
  if String.eqb (obj_type o) "MESH" then
    match match_mesh_name MESH_MATERIAL_MAP (obj_name o) with
    | Some t =>
        Printed ("      " +:+ obj_name o +:+ " -> " +:+ t) ::
        match selected_material materials o with
        | Some m => [Called (SlotsClear (data_ref o));
                     Called (SlotsAppend (data_ref o) (mat_name m))]
        | None => []
        end
    | None => []
    end
  else [].

(** What the assignment loop does to the data-blocks for one object. *)
Definition assign_step (materials : dict material)
  (d : gmap (string * N) (list material)) (o : object)
  : gmap (string * N) (list material) :=
  match selected_material materials o with
  | Some m => <[data_ref o := [m]]> d
  | None => d
  end.

(** The session holds no image and no material under a name the script
    asks for; otherwise Blender gives the new data-block another name. *)
Definition fresh_names (w : world) : bool :=
  forallb (fun img =>
             negb (existsb (String.eqb (img_name img))
                     (map img_name (flat_map texture_images (keys COLORS)))))
          (images w) &&
  forallb (fun m => negb (existsb (String.eqb (mat_name m)) (keys COLORS)))
          (materials_db w).

(** [w'] is [w] with more trace, images and materials, and the same scene. *)
Definition extends (w w' : world) (t : list event) (imgs : list image)
  (mats : list material) : Prop :=
  trace w' = trace w ++ t /\
  images w' = images w ++ imgs /\
  materials_db w' = materials_db w ++ mats /\
  objects w' = objects w /\
  data_materials w' = data_materials w.

(** A trace grows by prints and by library calls that do not raise. *)
Inductive steps (e : env) (t0 : list event) : list event -> Prop :=
| steps_refl : steps e t0 t0
| steps_print t s : steps e t0 t -> steps e t0 (t ++ [Printed s])
| steps_call t c :
    steps e t0 t -> fault e t c = None -> steps e t0 (t ++ [Called c]).

(** A computation that handles no exception: when it returns, no call it
    made has raised; when it raises, the exception is that of the last call
    it made, and nothing ran after that call. *)
Definition propagates {A : Type} (Q : A -> Prop) (m : M A) : Prop :=
  forall e w r w',
    m e w = (r, w') ->
    match r with
    | Returned a => steps e (trace w) (trace w') /\ Q a
    | Raised msg =>
        exists h c, steps e (trace w) h /\ trace w' = h ++ [Called c] /\
                    fault e h c = Some msg
    end.

(** No library call raises. *)
Definition no_fault (e : env) : Prop :=
  forall h c, fault e h c = None.

(** The library calls of a trace, in order. *)
Fixpoint calls_of (t : list event) : list call :=
  match t with
  | [] => []
  | Called c :: t' => c :: calls_of t'
  | _ :: t' => calls_of t'
  end.

(** Calls that come after the existence check of the input file. *)
Definition after_check_call (c : call) : bool :=
  match c with
  | ImportGltf _ _ | Makedirs _ _ | ImagesNew _ _ _ | MaterialsNew _
  | SlotsClear _ | SlotsAppend _ _ | ExportGltf _ => true
  | _ => false
  end.

(** What one iteration of the texture loop and of the material loop
    traces. *)
Definition texture_events (t : string) : list event :=
  Printed ("      Generating " +:+ t +:+ " textures...") ::
  map (fun i => Called (image_call i)) (texture_images t).

Definition material_events (t : string) : list event :=
  [Printed ("      Creating material: " +:+ t); Called (MaterialsNew t)].


(** The materials [main] creates, in order. *)
Definition created_materials : list material :=
  flat_map (fun t => option_list (pbr_material pbr_textures t)) (keys COLORS).

(** An event that is not a call made after the existence check. *)
Definition before_check (ev : event) : Prop :=
  match ev with
  | Called c => after_check_call c = false
  | _ => True
  end.

(** *** Sample sessions *)

Definition empty_world : world :=
  {| objects := []; data_materials := ∅; images := []; materials_db := [];
     trace := [] |}.

Definition sample_objects : list object :=
  [ {| obj_name := "Mother_Skin_001"; obj_type := "MESH"; obj_data := 1 |};
    {| obj_name := "Pedestal"; obj_type := "MESH"; obj_data := 2 |};
    {| obj_name := "Camera"; obj_type := "CAMERA"; obj_data := 1 |};
    {| obj_name := "unknown_mesh"; obj_type := "MESH"; obj_data := 3 |} ].

(** A session in which no call raises; [found] says whether the input file
    exists. *)
Definition sample_env (found : bool) : env :=
  {| path_exists := fun _ => found;
     survives := fun _ => false;
     glb_objects := sample_objects;
     glb_data := ∅;
     abspath := fun p => "/work/" +:+ p;
     fault := fun _ _ => None |}.

(** Two mesh objects that share one mesh data-block, one of them with a
    name that matches no key. *)
Definition imported_material : material :=
  {| mat_name := "imported"; use_nodes := false; blend_method := "OPAQUE";
     nodes := []; links := [] |}.

Definition skin_object : object :=
  {| obj_name := "Mother_Skin_001"; obj_type := "MESH"; obj_data := 1 |}.

Definition plain_object : object :=
  {| obj_name := "unknown_mesh"; obj_type := "MESH"; obj_data := 1 |}.

Definition shared_world : world :=
  {| objects := [skin_object; plain_object];
     data_materials := {[ ("MESH", 1%N) := [imported_material] ]};
     images := []; materials_db := []; trace := [] |}.


(** A scene with a hidden mesh, which the select-and-delete leaves behind,
    and a visible one. *)
Definition hidden_object : object :=
  {| obj_name := "Hidden_Body"; obj_type := "MESH"; obj_data := 7 |}.

Definition hidden_world : world :=
  {| objects := [ hidden_object;
                  {| obj_name := "Cube"; obj_type := "MESH"; obj_data := 8 |} ];
     data_materials := {[ ("MESH", 7%N) := [imported_material] ]};
     images := []; materials_db := [imported_material]; trace := [] |}.

Definition hidden_env (found : bool) : env :=
  {| path_exists := fun _ => found;
     survives := fun o => String.eqb (obj_name o) "Hidden_Body";
     glb_objects := sample_objects;
     glb_data := ∅;
     abspath := fun p => "/work/" +:+ p;
     fault := fun _ _ => None |}.

(** The keys declared before "skin" that the scan has to pass. *)
Definition keys_before_skin : list string :=
  [ "saree"; "Saree"; "cloth"; "Cloth"; "garment"; "hair"; "head_hair";
    "mother_hair"; "mother_skin"; "Mother_Skin" ].

(** *** Notions used to state further properties *)

(** 1 when the dict has the key, 0 otherwise. *)
Definition has_key {V : Type} (d : dict V) (k : string) : nat :=
  match dict_get d k with Some _ => 1 | None => 0 end.

(** A session in which every [materials.append] raises. *)
Definition append_fails_env : env :=
  {| path_exists := fun _ => true;
     survives := fun _ => false;
     glb_objects := sample_objects;
     glb_data := ∅;
     abspath := fun p => "/work/" +:+ p;
     fault := fun _ c =>
       match c with
       | SlotsAppend _ _ => Some "RuntimeError"
       | _ => None
       end |}.

Definition is_export (ev : event) : bool :=
  match ev with
  | Called (ExportGltf _) => true
  | _ => false
  end.

(** No export call among the events. *)
Definition no_export (t : list event) : Prop :=
  forallb (fun ev => negb (is_export ev)) t = true.

(** A computation that never calls the exporter, whatever its outcome. *)
Definition quiet {A : Type} (m : M A) : Prop :=
  forall e w r w',
    m e w = (r, w') -> exists t, trace w' = trace w ++ t /\ no_export t.

(** A computation that, when it raises, has not called the exporter, unless
    the exception is that of the export call, its last call. *)
Definition export_last {A : Type} (m : M A) : Prop :=
  forall e w r w',
    m e w = (r, w') ->
    exists t, trace w' = trace w ++ t /\
      match r with
      | Returned _ => True
      | Raised msg =>
          no_export t \/
          exists t0 p, t = t0 ++ [Called (ExportGltf p)] /\ no_export t0 /\
                       fault e (trace w ++ t0) (ExportGltf p) = Some msg
      end.

End PbrTextures.

(** * Properties *)

Import PyStr.
Import PbrTextures.

(** ** Strings *)

Example lower_example : lower "Mother_Skin_001" = "mother_skin_001".
Proof. reflexivity. Qed.

Example upper_example : upper "anemia_risk_model" = "ANEMIA_RISK_MODEL".
Proof. reflexivity. Qed.

Example contains_example :
  contains "skin" "mother_skin_001" = true /\ contains "hair" "chair" = true /\
  contains "base" "pedestal" = false /\ contains "" "" = true.
Proof. repeat split. Qed.

Example format_02x_example :
  map format_02x [x54; x00; xff] = ["54"; "00"; "ff"].
Proof. reflexivity. Qed.

Example str_of_nat_example : str_of_nat 1024 = "1024".
Proof. reflexivity. Qed.

Example write_bytes_example :
  SimpleGen.write_bytes 3 0 [x54; x46; x00] "" = "0x54, 0x46, 0x00".
Proof. reflexivity. Qed.

Lemma sapp_cons (a : ascii) (s t : string) :
  String a s +:+ t = String a (s +:+ t).
Proof. reflexivity. Qed.

Lemma sapp_nil_l (s : string) : "" +:+ s = s.
Proof. reflexivity. Qed.

Lemma sapp_nil_r (s : string) : s +:+ "" = s.
Proof. induction s as [|a s IH]; [reflexivity|]. now rewrite sapp_cons, IH. Qed.

Lemma sapp_assoc (s t u : string) : (s +:+ t) +:+ u = s +:+ (t +:+ u).
Proof.
  induction s as [|a s IH]; [reflexivity|].
  now rewrite !sapp_cons, IH.
Qed.

Lemma lower_app (s t : string) : lower (s +:+ t) = lower s +:+ lower t.
Proof.
  induction s as [|c s IH]; [reflexivity|].
  rewrite sapp_cons. simpl. now rewrite IH, sapp_cons.
Qed.

Lemma all_ascii_complete (c : ascii) : In c all_ascii.
Proof.
  unfold all_ascii. rewrite <- (ascii_nat_embedding c).
  apply in_map, in_seq. pose proof (nat_ascii_bounded c). lia.
Qed.

Lemma lower_char_same_letter (c d : ascii) :
  lower_char c = lower_char d <-> same_letter c d = true.
Proof.
  assert (H : forallb (fun c => forallb (fun d =>
                Bool.eqb (Ascii.eqb (lower_char c) (lower_char d))
                         (same_letter c d)) all_ascii) all_ascii = true)
    by (vm_compute; reflexivity).
  rewrite forallb_forall in H. specialize (H c (all_ascii_complete c)).
  rewrite forallb_forall in H. specialize (H d (all_ascii_complete d)).
  apply Bool.eqb_prop in H. rewrite <- H. symmetry. apply Ascii.eqb_eq.
Qed.

Lemma lower_same_letters (s t : string) :
  lower s = lower t <-> same_letters s t = true.
Proof.
  revert t. induction s as [|c s IH]; intros [|d t]; cbn [lower same_letters].
  - tauto.
  - split; discriminate.
  - split; discriminate.
  - rewrite andb_true_iff, <- IH, <- lower_char_same_letter. split.
    + intros [= Hc Hs]. auto.
    + intros [-> ->]. reflexivity.
Qed.

Lemma lower_app_inv (n x y : string) :
  lower n = x +:+ y ->
  exists a b, n = a +:+ b /\ lower a = x /\ lower b = y.
Proof.
  revert n. induction x as [|c x IH]; intros n H.
  - exists "", n. auto.
  - destruct n as [|d n]; [discriminate|].
    rewrite sapp_cons in H. cbn [lower] in H. injection H as Hc H.
    destruct (IH n H) as (a & b & -> & Ha & Hb).
    exists (String d a), b. rewrite sapp_cons. cbn [lower].
    now rewrite Hc, Ha.
Qed.

(** A key occurs in the folded name exactly when the name has a piece equal
    to the key up to the case of its letters. *)
Lemma lower_substring (k name : string) :
  (exists a b, lower name = a +:+ lower k +:+ b) <->
  (exists a s b, name = a +:+ s +:+ b /\ same_letters s k = true).
Proof.
  split.
  - intros (x & y & H).
    apply lower_app_inv in H as (a & rest & -> & _ & H).
    apply lower_app_inv in H as (s & b & -> & Hs & _).
    exists a, s, b. split; [reflexivity|]. now apply lower_same_letters.
  - intros (a & s & b & -> & Hs). apply lower_same_letters in Hs.
    exists (lower a), (lower b). now rewrite !lower_app, Hs.
Qed.

Lemma startswith_spec (p s : string) :
  startswith p s = true <-> exists b, s = p +:+ b.
Proof.
  revert s. induction p as [|a p IH]; intros s.
  - split; [intros _; now exists s | reflexivity].
  - destruct s as [|c s]; simpl.
    + split; [discriminate | intros [b Hb]; discriminate].
    + rewrite andb_true_iff, Ascii.eqb_eq, IH. split.
      * intros [-> [b ->]]. now exists b.
      * intros [b Hb]. rewrite sapp_cons in Hb. injection Hb as -> ->. eauto.
Qed.

(** [contains] decides the substring relation. *)
Lemma contains_spec (p s : string) :
  contains p s = true <-> exists a b, s = a +:+ p +:+ b.
Proof.
  induction s as [|c s IH].
  - simpl. rewrite orb_false_r, startswith_spec. split.
    + intros [b Hb]. now exists "", b.
    + intros [a [b Hab]]. destruct a as [|x a]; [now exists b|discriminate].
  - simpl. rewrite orb_true_iff, startswith_spec, IH. split.
    + intros [[b Hb]|[a [b Hab]]].
      * now exists "", b.
      * exists (String c a), b. now rewrite sapp_cons, Hab.
    + intros [a [b Hab]]. destruct a as [|x a].
      * left. now exists b.
      * right. rewrite sapp_cons in Hab. injection Hab as -> ->. eauto.
Qed.

Lemma contains_app_r (a p s : string) :
  contains (a +:+ p) s = true -> contains p s = true.
Proof.
  rewrite !contains_spec. intros [x [y ->]].
  exists (x +:+ a), y. now rewrite !sapp_assoc.
Qed.

Lemma contains_false_app_r (a p s : string) :
  contains p s = false -> contains (a +:+ p) s = false.
Proof.
  intros H. destruct (contains (a +:+ p) s) eqn:E; [|reflexivity].
  apply contains_app_r in E. congruence.
Qed.

(** ** The mesh-name matcher *)

Lemma match_mesh_name_with_lower (table : dict string) (name : string) :
  match_mesh_name_with lower table name = match_mesh_name table name.
Proof.
  induction table as [|[k v] rest IH]; [reflexivity|].
  cbn [match_mesh_name_with match_mesh_name]. now rewrite IH.
Qed.

Section Fold.
Variable str_lower : string -> string.
Hypothesis str_lower_ascii :
  forall s, ascii_text s = true -> str_lower s = lower s.

(** The scan over any table: either no key matches and the result is [None],
    or the table splits at its earliest matching entry. *)
Lemma match_mesh_name_with_scan (table : dict string) (name : string) :
  (match_mesh_name_with str_lower table name = None /\
   forall k v, In (k, v) table ->
     contains (str_lower k) (str_lower name) = false)
  \/
  (exists pre k v post,
     table = pre ++ (k, v) :: post /\
     contains (str_lower k) (str_lower name) = true /\
     (forall k' v', In (k', v') pre ->
        contains (str_lower k') (str_lower name) = false) /\
     match_mesh_name_with str_lower table name = Some v).
Proof.
  induction table as [|[k v] rest IH]; simpl.
  - left. split; [reflexivity | intros ? ? []].
  - destruct (contains (str_lower k) (str_lower name)) eqn:Hk.
    + right. exists [], k, v, rest. simpl. repeat split; auto. intros ? ? [].
    + destruct IH as [[Hnone Hall] | (pre & k1 & v1 & post & -> & Hm & Hpre & Hres)].
      * left. split; [assumption|].
        intros k' v' [Heq | Hin]; [injection Heq as <- <-; assumption | eauto].
      * right. exists ((k, v) :: pre), k1, v1, post. simpl.
        repeat split; auto.
        intros k' v' [Heq | Hin]; [injection Heq as <- <-; assumption | eauto].
Qed.

Lemma match_mesh_name_with_ascii (table : dict string) (name : string) :
  Forall (fun kv => ascii_text (fst kv) = true) table ->
  ascii_text name = true ->
  match_mesh_name_with str_lower table name = match_mesh_name table name.
Proof.
  intros Ht Hn. induction Ht as [|[k v] rest Hk _ IH]; [reflexivity|].
  cbn [match_mesh_name_with match_mesh_name].
  cbn [fst] in Hk.
  now rewrite (str_lower_ascii k Hk), (str_lower_ascii name Hn), IH.
Qed.
End Fold.

Lemma match_mesh_name_scan (table : dict string) (name : string) :
  (match_mesh_name table name = None /\
   forall k v, In (k, v) table -> contains (lower k) (lower name) = false)
  \/
  (exists pre k v post,
     table = pre ++ (k, v) :: post /\
     contains (lower k) (lower name) = true /\
     (forall k' v', In (k', v') pre ->
        contains (lower k') (lower name) = false) /\
     match_mesh_name table name = Some v).
Proof.
  rewrite <- match_mesh_name_with_lower. apply match_mesh_name_with_scan.
Qed.

Lemma lower_kelvin_ascii (s : string) :
  ascii_text s = true -> lower_kelvin s = lower s.
Proof.
  unfold ascii_text. induction s as [|c s IH]; [reflexivity|].
  cbn [all_chars lower_kelvin lower]. intros H.
  apply andb_true_iff in H as [Hc Hs]. now rewrite Hc, IH.
Qed.

Lemma mesh_keys_ascii :
  Forall (fun kv : string * string => ascii_text (fst kv) = true)
         MESH_MATERIAL_MAP.
Proof. repeat constructor. Qed.

(** C1: the matcher is a scan of MESH_MATERIAL_MAP in declaration order; a
    key matches when its folded form is a substring of the folded object
    name, where the fold is [str.lower]: any function that is [lower] on
    ASCII text.  For every name the result is either no assignment (no key
    matches, and then no material is picked for the mesh whatever materials
    exist) or the material identifier of the earliest matching entry.  The
    comparison is case-insensitive: for an ASCII name a key matches exactly
    when the name has a piece equal to the key up to the case of its
    letters, and the scan is [match_mesh_name]. *)
Theorem matcher_first_match_wins (str_lower : string -> string)
  (Hascii : forall s, ascii_text s = true -> str_lower s = lower s)
  (name : string) :
  let matches k := exists a b, str_lower name = a +:+ str_lower k +:+ b in
  ((match_mesh_name_with str_lower MESH_MATERIAL_MAP name = None /\
    (forall k v, In (k, v) MESH_MATERIAL_MAP -> ~ matches k) /\
    (forall materials o, obj_name o = name ->
       selected_material_with str_lower materials o = None))
   \/
   (exists pre k v post,
      MESH_MATERIAL_MAP = pre ++ (k, v) :: post /\
      matches k /\
      (forall k' v', In (k', v') pre -> ~ matches k') /\
      match_mesh_name_with str_lower MESH_MATERIAL_MAP name = Some v)) /\
  (ascii_text name = true ->
   (forall k v, In (k, v) MESH_MATERIAL_MAP ->
      (matches k <->
       exists a s b, name = a +:+ s +:+ b /\ same_letters s k = true)) /\
   match_mesh_name_with str_lower MESH_MATERIAL_MAP name
     = match_mesh_name MESH_MATERIAL_MAP name /\
   (forall materials o, obj_name o = name ->
      selected_material_with str_lower materials o
        = selected_material materials o)).
Proof.
  cbv zeta. split.
  - destruct (match_mesh_name_with_scan str_lower MESH_MATERIAL_MAP name)
      as [[Hnone Hall] | (pre & k & v & post & Heq & Hm & Hpre & Hres)].
    + left. split; [assumption|]. split.
      * intros k v Hin Hsub. apply contains_spec in Hsub.
        rewrite (Hall k v Hin) in Hsub. discriminate.
      * intros materials o Hname. unfold selected_material_with.
        rewrite Hname, Hnone. now destruct (String.eqb _ _).
    + right. exists pre, k, v, post. repeat split; try assumption.
      * now apply contains_spec.
      * intros k' v' Hin Hsub. apply contains_spec in Hsub.
        rewrite (Hpre k' v' Hin) in Hsub. discriminate.
  - intros Hn.
    assert (Heq := match_mesh_name_with_ascii str_lower Hascii
                     MESH_MATERIAL_MAP name mesh_keys_ascii Hn).
    split; [|split; [exact Heq|]].
    + intros k v Hin.
      assert (Hk : ascii_text k = true).
      { pose proof mesh_keys_ascii as Hall. rewrite List.Forall_forall in Hall.
        exact (Hall (k, v) Hin). }
      rewrite (Hascii name Hn), (Hascii k Hk). apply lower_substring.
    + intros materials o Hname.
      unfold selected_material_with, selected_material.
      now rewrite Hname, Heq.
Qed.

Lemma matcher_first_match_wins_witness :
  ascii_text "Mother_SKIN_001" = true /\
  match_mesh_name_with lower_kelvin MESH_MATERIAL_MAP "Mother_SKIN_001"
    = match_mesh_name MESH_MATERIAL_MAP "Mother_SKIN_001" /\
  match_mesh_name MESH_MATERIAL_MAP "Mother_SKIN_001" = Some "mother_skin" /\
  ascii_text kelvin_skin = false /\
  match_mesh_name_with lower_kelvin MESH_MATERIAL_MAP kelvin_skin
    = Some "mother_skin" /\
  match_mesh_name MESH_MATERIAL_MAP kelvin_skin = None.
Proof.
  split; [reflexivity|]. split.
  - exact (proj1 (proj2 (proj2 (matcher_first_match_wins lower_kelvin
                                  lower_kelvin_ascii "Mother_SKIN_001")
                                 eq_refl))).
  - repeat split; reflexivity.
Defined.

(** C2: the representative names of the specification. *)
Theorem matcher_representative_names :
  match_mesh_name MESH_MATERIAL_MAP "Mother_Skin_001" = Some "mother_skin" /\
  match_mesh_name MESH_MATERIAL_MAP "Pedestal" = Some "base" /\
  match_mesh_name MESH_MATERIAL_MAP "unknown_mesh" = None.
Proof. repeat split; vm_compute; reflexivity. Qed.

Lemma match_mesh_name_skip (k v : string) (rest : dict string) (name : string) :
  contains (lower k) (lower name) = false ->
  match_mesh_name ((k, v) :: rest) name = match_mesh_name rest name.
Proof. intros H. simpl. now rewrite H. Qed.

Lemma match_mesh_name_hit (k v : string) (rest : dict string) (name : string) :
  contains (lower k) (lower name) = true ->
  match_mesh_name ((k, v) :: rest) name = Some v.
Proof. intros H. simpl. now rewrite H. Qed.

Ltac in_list := vm_compute; repeat (first [left; reflexivity | right]).

(** A lower-cased name that contains "baby_skin" contains "skin". *)
Lemma baby_skin_contains_skin (s : string) :
  contains "baby_skin" s = true -> contains "skin" s = true.
Proof. apply (contains_app_r "baby_" "skin"). Qed.

(** C3: "skin" is declared before "baby_skin".  A mesh whose lower-cased name
    contains "skin" and none of the keys declared earlier (compared as the
    matcher compares them, lower-cased; a name that contains none of them as
    written contains none of them lower-cased) gets mother_skin; in
    particular a mesh named with "baby_skin" or "Baby_Skin" gets mother_skin
    and not baby_skin. *)
Theorem skin_shadows_baby_skin (name : string)
  (Hnone : forall k, In k keys_before_skin ->
                     contains (lower k) (lower name) = false) :
  (contains "skin" (lower name) = true ->
   match_mesh_name MESH_MATERIAL_MAP name = Some "mother_skin") /\
  (forall key, In key ["baby_skin"; "Baby_Skin"] ->
     contains (lower key) (lower name) = true ->
     match_mesh_name MESH_MATERIAL_MAP name = Some "mother_skin" /\
     match_mesh_name MESH_MATERIAL_MAP name <> Some "baby_skin").
Proof.
  assert (Hlow : forall k, In k (map lower keys_before_skin) ->
                           contains k (lower name) = false).
  { intros k Hk. apply in_map_iff in Hk as (k0 & <- & Hk0). now apply Hnone. }
  assert (Hskin : contains "skin" (lower name) = true ->
                  match_mesh_name MESH_MATERIAL_MAP name = Some "mother_skin").
  { intros Hs. unfold MESH_MATERIAL_MAP.
    repeat (rewrite match_mesh_name_skip by (apply Hlow; in_list)).
    now apply match_mesh_name_hit. }
  split; [exact Hskin|].
  intros key Hkey Hc.
  assert (Hb : contains "baby_skin" (lower name) = true).
  { destruct Hkey as [<- | [<- | []]]; exact Hc. }
  rewrite (Hskin (baby_skin_contains_skin _ Hb)).
  split; [reflexivity | discriminate].
Qed.

Lemma skin_shadows_baby_skin_witness :
  match_mesh_name MESH_MATERIAL_MAP "Baby_Skin_Mesh" = Some "mother_skin" /\
  match_mesh_name MESH_MATERIAL_MAP "Baby_Skin_Mesh" <> Some "baby_skin".
Proof.
  refine (proj2 (skin_shadows_baby_skin "Baby_Skin_Mesh" _) "Baby_Skin" _ _).
  - intros k Hk. simpl in Hk.
    repeat (destruct Hk as [<- | Hk]; [reflexivity|]). destruct Hk.
  - simpl. auto.
  - reflexivity.
Defined.

(** No mesh name at all is matched to baby_skin: each of its three keys
    contains "skin" or "body", which are declared earlier. *)
Lemma baby_skin_never_matched (name : string) :
  match_mesh_name MESH_MATERIAL_MAP name <> Some "baby_skin".
Proof.
  unfold MESH_MATERIAL_MAP.
  repeat match goal with
  | |- match_mesh_name ((?k, ?v) :: _) _ <> _ =>
      let E := fresh "E" in
      destruct (contains (lower k) (lower name)) eqn:E;
      [ rewrite (match_mesh_name_hit _ _ _ _ E)
      | rewrite (match_mesh_name_skip _ _ _ _ E) ]
  end; try discriminate.
  all: repeat match goal with
       | H : contains (lower _) _ = _ |- _ => vm_compute lower in H |- *
       end.
  all: try (exfalso;
            match goal with
            | Hs : contains "skin" ?s = false, Hb : contains "baby_skin" ?s = true |- _ =>
                rewrite (baby_skin_contains_skin _ Hb) in Hs; discriminate
            | Hs : contains "body" ?s = false, Hb : contains "baby_body" ?s = true |- _ =>
                rewrite (contains_app_r "baby_" "body" _ Hb) in Hs; discriminate
            end).
Qed.

(** ** The stub buffers *)

Lemma tag_then_zeros_layout (n : nat) :
  has_stub_layout (bytes_of_string "TFL3" ++ replicate n x00) /\
  length (bytes_of_string "TFL3" ++ replicate n x00) = (4 + n)%nat.
Proof.
  split; [split|].
  - reflexivity.
  - intros i b Hi Hb.
    rewrite lookup_app_r in Hb by (simpl; lia).
    apply lookup_replicate in Hb. tauto.
  - rewrite length_app, length_replicate. reflexivity.
Qed.

(** C4: every buffer built by the generator scripts is the tag TFL3 followed
    by zero bytes only, and within one script all buffers have the same
    length, whatever the model. *)
Theorem stub_buffers_fixed_layout :
  (forall model_name description,
     let data := SimpleGen.gen_data
                   (SimpleGen.generate_c_header model_name description) in
     has_stub_layout data /\ length data = 1024%nat) /\
  (forall input_size output_size,
     let data := TfliteModels.generate_minimal_tflite_stub
                   input_size output_size in
     has_stub_layout data /\ length data = 1004%nat) /\
  (forall g, In g SimpleGen.script ->
     has_stub_layout (SimpleGen.gen_data g) /\
     length (SimpleGen.gen_data g) = 1024%nat) /\
  (forall data, In data TfliteModels.script ->
     has_stub_layout data /\ length data = 1004%nat).
Proof.
  assert (H1 : forall model_name description,
     has_stub_layout (SimpleGen.gen_data
       (SimpleGen.generate_c_header model_name description)) /\
     length (SimpleGen.gen_data
       (SimpleGen.generate_c_header model_name description)) = 1024%nat).
  { intros. apply (tag_then_zeros_layout 1020). }
  assert (H2 : forall input_size output_size,
     has_stub_layout
       (TfliteModels.generate_minimal_tflite_stub input_size output_size) /\
     length (TfliteModels.generate_minimal_tflite_stub input_size output_size)
       = 1004%nat).
  { intros. apply (tag_then_zeros_layout 1000). }
  split; [exact H1|]. split; [exact H2|]. split.
  - intros g [<- | [<- | [<- | []]]]; apply H1.
  - intros data [<- | [<- | [<- | []]]]; apply H2.
Qed.

(** C9: the stub generator ignores both of its parameters; every call returns
    the same 1004 bytes, so the three placeholder models are equal. *)
Theorem tflite_stub_ignores_sizes :
  (forall i1 o1 i2 o2,
     TfliteModels.generate_minimal_tflite_stub i1 o1 =
     TfliteModels.generate_minimal_tflite_stub i2 o2) /\
  (forall i o,
     TfliteModels.generate_minimal_tflite_stub i o =
       [x54; x46; x4c; x33] ++ replicate 1000 x00 /\
     length (TfliteModels.generate_minimal_tflite_stub i o) = 1004%nat) /\
  TfliteModels.arrhythmia_model = TfliteModels.anemia_model /\
  TfliteModels.anemia_model = TfliteModels.preeclampsia_model.
Proof.
  repeat split.
Qed.

(** ** The generated header *)

Lemma write_bytes_cons (n i : nat) (b : byte) (rest : list byte) (f : string) :
  SimpleGen.write_bytes n i (b :: rest) f =
  SimpleGen.write_bytes n (S i) rest
    (let f := SimpleGen.write ("0x" +:+ format_02x b) f in
     if (i <? n - 1)%nat then
       let f := SimpleGen.write "," f in
       if ((i + 1) mod 16 =? 0)%nat then SimpleGen.write (nl +:+ "  ") f
       else SimpleGen.write " " f
     else f).
Proof. reflexivity. Qed.

Lemma write_bytes_app (n : nat) (data : list byte) :
  forall (i : nat) (f : string),
    SimpleGen.write_bytes n i data f = f +:+ SimpleGen.write_bytes n i data "".
Proof.
  induction data as [|b rest IH]; intros i f.
  - simpl. now rewrite sapp_nil_r.
  - rewrite !write_bytes_cons. cbv zeta.
    rewrite IH. symmetry. rewrite IH. symmetry.
    rewrite <- sapp_assoc. f_equal.
    unfold SimpleGen.write.
    destruct (i <? n - 1)%nat; [destruct ((i + 1) mod 16 =? 0)%nat|];
      now rewrite ?sapp_nil_l, ?sapp_assoc.
Qed.

Lemma format_02x_hex (b : byte) :
  exists h l, format_02x b = String h (String l "") /\
              is_hex_digit h = true /\ is_hex_digit l = true.
Proof.
  exists (hex_digit (Byte.to_N b / 16)), (hex_digit (Byte.to_N b mod 16)).
  split; [reflexivity|]. destruct b; split; reflexivity.
Qed.

Lemma hex_digit_not_x (c : ascii) :
  is_hex_digit c = true -> Ascii.eqb c "x" = false.
Proof.
  destruct c as [[] [] [] [] [] [] [] []]; vm_compute; congruence.
Qed.

Lemma count_hex_literal_cons (h l : ascii) (t : string) :
  is_hex_digit h = true -> is_hex_digit l = true -> not_x t ->
  count_hex_literals (String "0" (String "x" (String h (String l t)))) =
    S (count_hex_literals t).
Proof.
  intros Hh Hl Ht.
  change (count_hex_literals (String "0" (String "x" (String h (String l t)))))
    with ((if is_hex_digit h && is_hex_digit l then 1 else 0) +
          ((if starts_hex_literal (String h (String l t)) then 1 else 0) +
           ((if starts_hex_literal (String l t) then 1 else 0) +
            count_hex_literals t)))%nat.
  rewrite Hh, Hl. simpl andb. cbv iota.
  assert (H3 : starts_hex_literal (String h (String l t)) = false).
  { simpl. rewrite (hex_digit_not_x l Hl). now rewrite andb_false_r. }
  assert (H4 : starts_hex_literal (String l t) = false).
  { simpl. destruct t as [|c t']; [now rewrite andb_false_r|].
    simpl in Ht. rewrite Ht. now rewrite andb_false_r. }
  rewrite H3, H4. reflexivity.
Qed.

(** The loop writes one literal per byte, whatever the buffer. *)
Lemma write_bytes_count (n : nat) (data : list byte) :
  forall i : nat,
    count_hex_literals (SimpleGen.write_bytes n i data "") = length data /\
    not_x (SimpleGen.write_bytes n i data "").
Proof.
  induction data as [|b rest IH]; intros i.
  - split; [reflexivity | exact I].
  - destruct (IH (S i)) as [IHc IHx].
    destruct (format_02x_hex b) as (h & l & Hfmt & Hh & Hl).
    rewrite write_bytes_cons. cbv zeta. rewrite write_bytes_app.
    unfold SimpleGen.write. rewrite Hfmt.
    destruct (i <? n - 1)%nat; [destruct ((i + 1) mod 16 =? 0)%nat|].
    + split; [|reflexivity].
      change (count_hex_literals
                (String "0" (String "x" (String h (String l
                   (String "," (String "010" (String " " (String " "
                      (SimpleGen.write_bytes n (S i) rest "")))))))))
              = S (length rest)).
      rewrite count_hex_literal_cons by (auto; reflexivity).
      simpl. now rewrite IHc.
    + split; [|reflexivity].
      change (count_hex_literals
                (String "0" (String "x" (String h (String l
                   (String "," (String " "
                      (SimpleGen.write_bytes n (S i) rest "")))))))
              = S (length rest)).
      rewrite count_hex_literal_cons by (auto; reflexivity).
      simpl. now rewrite IHc.
    + split; [|reflexivity].
      change (count_hex_literals
                (String "0" (String "x" (String h (String l
                      (SimpleGen.write_bytes n (S i) rest "")))))
              = S (length rest)).
      rewrite count_hex_literal_cons by auto.
      now rewrite IHc.
Qed.

Lemma header_text_shape (model_name description : string) :
  SimpleGen.header_text model_name description =
    SimpleGen.guard_open (SimpleGen.guard_of model_name) +:+
    SimpleGen.comment_lines description +:+
    SimpleGen.array_open model_name +:+
    SimpleGen.array_text +:+
    SimpleGen.array_close +:+
    SimpleGen.len_decl model_name (length SimpleGen.model_data) +:+
    SimpleGen.guard_close (SimpleGen.guard_of model_name).
Proof.
  unfold SimpleGen.header_text. cbv zeta. unfold SimpleGen.write.
  rewrite write_bytes_app. fold SimpleGen.array_text.
  unfold SimpleGen.guard_open, SimpleGen.comment_lines, SimpleGen.array_open,
    SimpleGen.array_close, SimpleGen.len_decl, SimpleGen.guard_close.
  rewrite !sapp_nil_l, !sapp_assoc. reflexivity.
Qed.

(** C5: in the header emitted for any model name, the value of the constant
    <model_name>_tflite_len is the number of byte literals written into the
    array <model_name>_tflite, which is the length of the buffer, 1024. *)
Theorem header_declared_length_matches (model_name description : string) :
  let g := SimpleGen.generate_c_header model_name description in
  SimpleGen.gen_text g =
    SimpleGen.guard_open (SimpleGen.guard_of model_name) +:+
    SimpleGen.comment_lines description +:+
    SimpleGen.array_open model_name +:+
    SimpleGen.array_text +:+
    SimpleGen.array_close +:+
    SimpleGen.len_decl model_name (count_hex_literals SimpleGen.array_text) +:+
    SimpleGen.guard_close (SimpleGen.guard_of model_name) /\
  count_hex_literals SimpleGen.array_text = length (SimpleGen.gen_data g) /\
  length (SimpleGen.gen_data g) = 1024%nat /\
  SimpleGen.gen_return g = 1024%nat /\
  SimpleGen.len_decl model_name (count_hex_literals SimpleGen.array_text) =
    "const unsigned int " +:+ model_name +:+ "_tflite_len = 1024;" +:+ nl +:+ nl.
Proof.
  assert (Hc : count_hex_literals SimpleGen.array_text
               = length SimpleGen.model_data).
  { apply write_bytes_count. }
  assert (Hl : length SimpleGen.model_data = 1024%nat) by reflexivity.
  cbv zeta. simpl SimpleGen.gen_text. simpl SimpleGen.gen_data.
  simpl SimpleGen.gen_return.
  rewrite Hc.
  split; [apply header_text_shape|].
  split; [reflexivity|].
  split; [exact Hl|].
  split; [exact Hl|].
  rewrite Hl. reflexivity.
Qed.

(** C7: the header written for a model is, under the path
    models_h/<model_name>.h, the include guard <MODEL_NAME>_H opened by
    #ifndef and #define, the array <model_name>_tflite[] whose initializer
    lists the bytes of the buffer as hexadecimal literals, the constant
    <model_name>_tflite_len, and the closing #endif of the guard; the script
    writes three such headers, for names that are literals of the script. *)
Theorem header_file_structure :
  (forall model_name description,
     let g := SimpleGen.generate_c_header model_name description in
     let guard := upper model_name +:+ "_H" in
     SimpleGen.gen_path g = "models_h/" +:+ model_name +:+ ".h" /\
     SimpleGen.gen_text g =
       ("#ifndef " +:+ guard +:+ nl +:+ "#define " +:+ guard +:+ nl +:+ nl) +:+
       SimpleGen.comment_lines description +:+
       ("const unsigned char " +:+ model_name +:+ "_tflite[] " +:+
        "__attribute__((aligned(16))) = {" +:+ nl +:+ "  ") +:+
       SimpleGen.array_text +:+
       (nl +:+ "};" +:+ nl +:+ nl) +:+
       ("const unsigned int " +:+ model_name +:+ "_tflite_len = " +:+
        str_of_nat (length (SimpleGen.gen_data g)) +:+ ";" +:+ nl +:+ nl) +:+
       ("#endif // " +:+ guard +:+ nl) /\
     parse_hex_literals SimpleGen.array_text = SimpleGen.gen_data g) /\
  SimpleGen.script =
    [ SimpleGen.generate_c_header "arrhythmia_risk_model" "Arrhythmia Detection";
      SimpleGen.generate_c_header "anemia_risk_model" "Anemia Risk Assessment";
      SimpleGen.generate_c_header "preeclampsia_risk_model"
        "Preeclampsia Detection" ] /\
  map SimpleGen.gen_path SimpleGen.script =
    [ "models_h/arrhythmia_risk_model.h"; "models_h/anemia_risk_model.h";
      "models_h/preeclampsia_risk_model.h" ] /\
  map SimpleGen.guard_of
      ["arrhythmia_risk_model"; "anemia_risk_model"; "preeclampsia_risk_model"] =
    [ "ARRHYTHMIA_RISK_MODEL_H"; "ANEMIA_RISK_MODEL_H";
      "PREECLAMPSIA_RISK_MODEL_H" ].
Proof.
  split; [|split; [reflexivity|split; vm_compute; reflexivity]].
  intros model_name description. cbv zeta.
  split; [reflexivity|]. split.
  - apply header_text_shape.
  - vm_compute. reflexivity.
Qed.

(** ** Running the Blender session *)

Section Run.
Context {A B : Type} (k : A -> M B) (e : env) (w : world).

Lemma bind_run (m : M A) :
  (m ≫= k) e w = match m e w with
                 | (Returned a, w') => k a e w'
                 | (Raised msg, w') => (Raised msg, w')
                 end.
Proof. reflexivity. Qed.

Lemma bind_ret (a : A) : (mret a ≫= k) e w = k a e w.
Proof. reflexivity. Qed.

Lemma bind_ask (f : env -> A) : (ask f ≫= k) e w = k (f e) e w.
Proof. reflexivity. Qed.

Lemma bind_gets (f : world -> A) : (gets f ≫= k) e w = k (f w) e w.
Proof. reflexivity. Qed.

Lemma bind_assoc {C : Type} (m : M C) (f : C -> M A) :
  ((m ≫= f) ≫= k) e w = (m ≫= fun c => f c ≫= k) e w.
Proof.
  unfold mbind, M_bind. destruct (m e w) as [[c|msg] w1]; reflexivity.
Qed.
End Run.

Section RunUnit.
Context {B : Type} (k : unit -> M B) (e : env) (w : world).

Lemma bind_print (s : string) :
  (print s ≫= k) e w = k tt e (log (Printed s) w).
Proof. reflexivity. Qed.

Lemma bind_modify (f : world -> world) :
  (modify f ≫= k) e w = k tt e (f w).
Proof. reflexivity. Qed.

Lemma bind_lib (c : call) :
  no_fault e -> (lib c ≫= k) e w = k tt e (log (Called c) w).
Proof. intros H. rewrite bind_run. unfold lib. now rewrite H. Qed.
End RunUnit.

Ltac run Hnf :=
  repeat first
    [ rewrite bind_assoc
    | rewrite bind_print
    | rewrite bind_modify
    | rewrite bind_ret
    | rewrite bind_ask
    | rewrite bind_gets
    | rewrite (bind_lib _ _ _ _ Hnf) ].

Ltac run_in Hnf H :=
  repeat first
    [ rewrite bind_assoc in H
    | rewrite bind_print in H
    | rewrite bind_modify in H
    | rewrite bind_ret in H
    | rewrite bind_ask in H
    | rewrite bind_gets in H
    | rewrite (bind_lib _ _ _ _ Hnf) in H ].


Lemma bind_index {V B : Type} (d : dict V) (key : string) (v : V)
  (k : V -> M B) (e : env) (w : world) :
  dict_get d key = Some v -> (dict_index d key ≫= k) e w = k v e w.
Proof. intros H. unfold dict_index. now rewrite H. Qed.

Lemma lib_returns c e w a w' :
  lib c e w = (Returned a, w') -> w' = log (Called c) w.
Proof.
  unfold lib. destruct (fault e (trace w) c); intros H; inversion H; reflexivity.
Qed.

Lemma assign_object_returns materials o e w w' :
  assign_object materials o e w = (Returned tt, w') ->
  data_materials w' = assign_step materials (data_materials w) o /\
  trace w' = trace w ++ assign_events materials o /\
  objects w' = objects w /\ images w' = images w /\
  materials_db w' = materials_db w.
Proof.
  unfold assign_object, assign_step, assign_events, selected_material.
  destruct (String.eqb (obj_type o) "MESH"); cbn [negb].
  - destruct (match_mesh_name MESH_MATERIAL_MAP (obj_name o)) as [t|].
    + rewrite bind_print.
      unfold dict_mem. destruct (truthy t); cbn [andb].
      * destruct (dict_get materials t) as [m|] eqn:Hm.
        -- unfold slots_clear, slots_append. rewrite !bind_assoc.
           rewrite bind_run.
           destruct (lib (SlotsClear (data_ref o)) e _) as [[[]|msg] w1] eqn:H1;
             [|discriminate].
           apply lib_returns in H1. subst w1.
           rewrite bind_modify, (bind_index _ _ _ _ _ _ Hm), bind_run.
           destruct (lib (SlotsAppend (data_ref o) (mat_name m)) e _)
             as [[[]|msg] w2] eqn:H2; [|discriminate].
           apply lib_returns in H2. subst w2.
           unfold modify. intros H. inversion H; subst w'; clear H.
           cbn. unfold slots, slots_of. cbn.
           rewrite lookup_insert_eq. cbn. rewrite insert_insert_eq.
           rewrite <- !app_assoc. auto.
        -- intros H. inversion H. cbn. auto.
      * intros H. inversion H. cbn. auto.
    + rewrite bind_ret. intros H. inversion H. rewrite app_nil_r. auto.
  - intros H. inversion H. rewrite app_nil_r. auto.
Qed.

Lemma assign_object_no_fault materials o e w :
  no_fault e -> exists w', assign_object materials o e w = (Returned tt, w').
Proof.
  intros Hnf. unfold assign_object.
  destruct (String.eqb (obj_type o) "MESH"); cbn [negb]; [|eexists; reflexivity].
  destruct (match_mesh_name MESH_MATERIAL_MAP (obj_name o)) as [t|].
  - rewrite bind_print. unfold dict_mem.
    destruct (truthy t); cbn [andb]; [|eexists; reflexivity].
    destruct (dict_get materials t) as [m|] eqn:Hm; [|eexists; reflexivity].
    unfold slots_clear, slots_append. rewrite !bind_assoc.
    rewrite (bind_lib _ _ _ _ Hnf), bind_modify, (bind_index _ _ _ _ _ _ Hm).
    rewrite (bind_lib _ _ _ _ Hnf). eexists; reflexivity.
  - rewrite bind_ret. eexists; reflexivity.
Qed.

Lemma assign_materials_returns materials objs :
  forall e w w',
    assign_materials materials objs e w = (Returned tt, w') ->
    data_materials w' = fold_left (assign_step materials) objs (data_materials w) /\
    trace w' = trace w ++ flat_map (assign_events materials) objs /\
    objects w' = objects w /\ images w' = images w /\
    materials_db w' = materials_db w.
Proof.
  unfold assign_materials.
  induction objs as [|o objs IH]; intros e w w' H.
  - inversion H. cbn. rewrite app_nil_r. auto.
  - cbn [for_each] in H. rewrite bind_run in H.
    destruct (assign_object materials o e w) as [[[]|msg] w1] eqn:H1;
      [|discriminate].
    apply assign_object_returns in H1 as (Hd & Ht & Ho & Hi & Hm).
    apply IH in H as (Hd' & Ht' & Ho' & Hi' & Hm').
    cbn [fold_left flat_map]. rewrite Hd', Ht', Ho', Hi', Hm', Hd, Ht, Ho, Hi, Hm.
    rewrite <- app_assoc. auto.
Qed.

Lemma assign_materials_no_fault materials objs :
  forall e w, no_fault e ->
    exists w', assign_materials materials objs e w = (Returned tt, w').
Proof.
  unfold assign_materials.
  induction objs as [|o objs IH]; intros e w Hnf.
  - eexists; reflexivity.
  - cbn [for_each]. rewrite bind_run.
    destruct (assign_object_no_fault materials o e w Hnf) as [w1 ->].
    apply IH, Hnf.
Qed.



Lemma calls_of_app (t1 t2 : list event) :
  calls_of (t1 ++ t2) = calls_of t1 ++ calls_of t2.
Proof.
  induction t1 as [|[s|c|] t1 IH]; cbn [calls_of app]; rewrite ?IH; reflexivity.
Qed.

Ltac fields :=
  cbn [trace objects images materials_db data_materials
       log set_objects set_data add_image add_material].

Ltac fields_in H :=
  cbn [trace objects images materials_db data_materials
       log set_objects set_data add_image add_material] in H.

Lemma extends_refl (w : world) : extends w w [] [] [].
Proof. unfold extends. rewrite !app_nil_r. auto. Qed.

Lemma extends_trans (w w1 w2 : world) t1 i1 m1 t2 i2 m2 :
  extends w w1 t1 i1 m1 -> extends w1 w2 t2 i2 m2 ->
  extends w w2 (t1 ++ t2) (i1 ++ i2) (m1 ++ m2).
Proof.
  intros (Ht & Hi & Hm & Ho & Hd) (Ht' & Hi' & Hm' & Ho' & Hd').
  unfold extends. rewrite Ht', Hi', Hm', Ho', Hd', Ht, Hi, Hm, Ho, Hd.
  rewrite !app_assoc. auto.
Qed.

(** A loop whose body always returns. *)
Lemma for_fold_run {A S : Type} (e : env) (l : list A) (body : S -> A -> M S)
  (fs : S -> A -> S) (ft : A -> list event) (fi : A -> list image)
  (fm : A -> list material) :
  (forall s x w, In x l ->
     exists w1, body s x e w = (Returned (fs s x), w1) /\
                extends w w1 (ft x) (fi x) (fm x)) ->
  forall s w,
    exists w', for_fold l body s e w = (Returned (fold_left fs l s), w') /\
               extends w w' (flat_map ft l) (flat_map fi l) (flat_map fm l).
Proof.
  induction l as [|x l IH]; intros Hbody s w.
  - exists w. split; [reflexivity | apply extends_refl].
  - destruct (Hbody s x w (or_introl eq_refl)) as (w1 & Hrun & Hext).
    destruct (IH (fun s x w H => Hbody s x w (or_intror H)) (fs s x) w1)
      as (w2 & Hrun2 & Hext2).
    exists w2. split.
    + cbn [for_fold fold_left]. rewrite bind_run, Hrun. exact Hrun2.
    + cbn [flat_map]. eapply extends_trans; eassumption.
Qed.

Lemma generate_textures_for_run e w textures t color rough :
  no_fault e ->
  dict_get COLORS t = Some color -> dict_get ROUGHNESS t = Some rough ->
  exists w1,
    generate_textures_for textures t e w
      = (Returned (add_textures textures (texture_images t)), w1) /\
    extends w w1
      (Printed ("      Generating " +:+ t +:+ " textures...") ::
       map (fun i => Called (image_call i)) (texture_images t))
      (texture_images t) [].
Proof.
  intros Hnf Hc Hr.
  unfold generate_textures_for, create_simple_texture, create_normal_map,
    create_roughness_texture, images_new, texture_images.
  rewrite Hc, Hr.
  rewrite bind_print, (bind_index _ _ _ _ _ _ Hc). run Hnf.
  rewrite (bind_index _ _ _ _ _ _ Hr). run Hnf.
  eexists. split; [reflexivity|].
  unfold extends. fields. rewrite <- !app_assoc. rewrite !app_nil_r.
  repeat split; reflexivity.
Qed.

Lemma create_material_for_run e w textures materials t m :
  no_fault e -> pbr_material textures t = Some m ->
  exists w1,
    create_material_for textures materials t e w
      = (Returned (add_pbr_material textures materials t), w1) /\
    extends w w1
      [Printed ("      Creating material: " +:+ t); Called (MaterialsNew t)]
      [] [m].
Proof.
  intros Hnf Hm. unfold add_pbr_material. rewrite Hm.
  unfold pbr_material in Hm.
  destruct (dict_get textures (t +:+ "_basecolor")) as [bc|] eqn:Hbc;
    [|discriminate].
  destruct (dict_get textures (t +:+ "_normal")) as [n|] eqn:Hn;
    [|discriminate].
  destruct (dict_get textures (t +:+ "_roughness")) as [r|] eqn:Hr;
    [|discriminate].
  destruct (dict_get COLORS t) as [color|] eqn:Hc; [|discriminate].
  destruct (dict_get ROUGHNESS t) as [rough|] eqn:Hro; [|discriminate].
  destruct (dict_get METALLIC t) as [metal|] eqn:Hme; [|discriminate].
  cbn in Hm. injection Hm as <-.
  unfold create_material_for, create_pbr_material.
  rewrite bind_print.
  rewrite (bind_index _ _ _ _ _ _ Hbc), (bind_index _ _ _ _ _ _ Hn),
    (bind_index _ _ _ _ _ _ Hr), (bind_index _ _ _ _ _ _ Hc),
    (bind_index _ _ _ _ _ _ Hro), (bind_index _ _ _ _ _ _ Hme).
  run Hnf.
  eexists. split; [reflexivity|].
  unfold extends. fields. rewrite <- !app_assoc. rewrite !app_nil_r.
  repeat split; reflexivity.
Qed.

Lemma textures_phase e w :
  no_fault e ->
  exists w',
    for_fold (keys COLORS) generate_textures_for [] e w
      = (Returned pbr_textures, w') /\
    extends w w' (flat_map texture_events (keys COLORS))
      (flat_map texture_images (keys COLORS)) [].
Proof.
  intros Hnf.
  destruct (for_fold_run e (keys COLORS) generate_textures_for
              (fun d t => add_textures d (texture_images t))
              texture_events texture_images (fun _ => [])) with (s := @nil (string * image)) (w := w)
    as (w' & Hrun & Hext).
  - intros s x w0 Hx.
    assert (Hk : exists color rough,
               dict_get COLORS x = Some color /\ dict_get ROUGHNESS x = Some rough).
    { cbn in Hx.
      repeat (destruct Hx as [<- | Hx]; [eexists _, _; split; reflexivity|]).
      destruct Hx. }
    destruct Hk as (color & rough & Hc & Hr).
    apply (generate_textures_for_run e w0 s x color rough Hnf Hc Hr).
  - exists w'. split; [exact Hrun|].
    replace (flat_map (fun _ : string => @nil material) (keys COLORS))
      with (@nil material) in Hext by reflexivity.
    exact Hext.
Qed.

Lemma materials_phase e w :
  no_fault e ->
  exists w',
    for_fold (keys COLORS) (create_material_for pbr_textures) [] e w
      = (Returned pbr_materials, w') /\
    extends w w' (flat_map material_events (keys COLORS)) [] created_materials.
Proof.
  intros Hnf.
  destruct (for_fold_run e (keys COLORS) (create_material_for pbr_textures)
              (add_pbr_material pbr_textures)
              material_events (fun _ => [])
              (fun t => option_list (pbr_material pbr_textures t)))
    with (s := @nil (string * material)) (w := w)
    as (w' & Hrun & Hext).
  - intros s x w0 Hx.
    assert (Hk : exists m, pbr_material pbr_textures x = Some m).
    { cbn in Hx.
      repeat (destruct Hx as [<- | Hx]; [eexists; vm_compute; reflexivity|]).
      destruct Hx. }
    destruct Hk as (m & Hm). rewrite Hm.
    apply (create_material_for_run e w0 pbr_textures s x m Hnf Hm).
  - exists w'. split; [exact Hrun|].
    replace (flat_map (fun _ : string => @nil image) (keys COLORS))
      with (@nil image) in Hext by reflexivity.
    exact Hext.
Qed.


Lemma main_full e w :
  no_fault e -> path_exists e INPUT_GLB = true ->
  exists w', main e w = (Returned (Some (abspath e OUTPUT_GLB)), w') /\
   calls_of (trace w') = calls_of (trace w) ++
      [SelectAll "SELECT"; ObjectDelete false; PathExists INPUT_GLB;
       ImportGltf INPUT_GLB false; Makedirs TEXTURE_DIR true] ++
      map image_call (flat_map texture_images (keys COLORS)) ++
      map MaterialsNew (keys COLORS) ++
      calls_of (flat_map (assign_events pbr_materials) (scene_of e w)) ++
      [SelectAll "SELECT"; ExportGltf (abspath e OUTPUT_GLB)] /\
   images w' = images w ++ flat_map texture_images (keys COLORS) /\
   materials_db w' = materials_db w ++ created_materials /\
   objects w' = scene_of e w /\
   data_materials w' =
     fold_left (assign_step pbr_materials) (scene_of e w)
       (glb_data e ∪ data_materials w).
Proof.
  intros Hnf Hex. unfold scene_of.
  unfold main, select_all, object_delete, os_path_exists.
  run Hnf. rewrite Hex. cbn [negb].
  unfold main_after_check, import_gltf, os_makedirs.
  run Hnf.
  edestruct (textures_phase e) as (w2 & Hrun2 & Ht2 & Hi2 & Hm2 & Ho2 & Hd2);
    [exact Hnf|].
  rewrite bind_run, Hrun2. run Hnf.
  edestruct (materials_phase e) as (w3 & Hrun3 & Ht3 & Hi3 & Hm3 & Ho3 & Hd3);
    [exact Hnf|].
  rewrite bind_run, Hrun3. run Hnf.
  fields_in Ht2. fields_in Hi2. fields_in Hm2. fields_in Ho2. fields_in Hd2.
  fields_in Ht3. fields_in Hi3. fields_in Hm3. fields_in Ho3. fields_in Hd3.
  cbn [app] in Ho2.
  fields. rewrite Ho3, Ho2.
  lazymatch goal with
  | |- context [(assign_materials ?m ?o ≫= ?k) e ?w0] =>
      destruct (assign_materials_no_fault m o e w0 Hnf) as [w4 Hrun4];
      rewrite (bind_run k e w0 (assign_materials m o)), Hrun4
  end.
  cbv beta iota.
  apply assign_materials_returns in Hrun4 as (Hd4 & Ht4 & Ho4 & Hi4 & Hm4).
  unfold export_gltf, select_all. run Hnf.
  eexists. split; [reflexivity|].
  fields_in Hd4. fields_in Ht4. fields_in Ho4. fields_in Hi4. fields_in Hm4.
  fields.
  rewrite Ht4, Ho4, Hi4, Hm4, Hd4, Ht3, Hi3, Hm3, Ho3, Hd3, Ht2, Hi2, Hm2, Ho2, Hd2.
  rewrite !app_nil_r.
  split; [|auto].
  rewrite !calls_of_app. cbn [calls_of app]. rewrite !app_nil_r.
  rewrite <- !app_assoc. cbn [app].
  reflexivity.
Qed.


(** ** Exceptions propagate through [main] *)

Lemma steps_trans e t0 t1 t2 :
  steps e t0 t1 -> steps e t1 t2 -> steps e t0 t2.
Proof.
  intros H1 H2. induction H2.
  - exact H1.
  - now apply steps_print.
  - now apply steps_call.
Qed.

Lemma propagates_ret {A : Type} (Q : A -> Prop) (a : A) :
  Q a -> propagates Q (mret a).
Proof.
  intros Ha e w r w' H. inversion H; subst. split; [constructor | exact Ha].
Qed.

Lemma propagates_print (s : string) : propagates (fun _ => True) (print s).
Proof.
  intros e w r w' H. inversion H; subst. split; [|exact I].
  cbn. apply steps_print. constructor.
Qed.

Lemma propagates_lib (c : call) : propagates (fun _ => True) (lib c).
Proof.
  intros e w r w' H. unfold lib in H.
  destruct (fault e (trace w) c) as [msg|] eqn:Hf; inversion H; subst.
  - exists (trace w), c. split; [constructor|]. split; [reflexivity | exact Hf].
  - split; [|exact I]. cbn. apply steps_call; [constructor | exact Hf].
Qed.

Lemma propagates_modify (f : world -> world) :
  (forall w, trace (f w) = trace w) ->
  propagates (fun _ => True) (modify f).
Proof.
  intros Hf e w r w' H. inversion H; subst. split; [|exact I].
  rewrite Hf. constructor.
Qed.

Lemma propagates_ask {A : Type} (f : env -> A) :
  propagates (fun _ => True) (ask f).
Proof.
  intros e w r w' H. inversion H; subst. split; [constructor | exact I].
Qed.

Lemma propagates_gets {A : Type} (f : world -> A) :
  propagates (fun _ => True) (gets f).
Proof.
  intros e w r w' H. inversion H; subst. split; [constructor | exact I].
Qed.

Lemma propagates_bind {A B : Type} (Q : A -> Prop) (R : B -> Prop)
  (m : M A) (k : A -> M B) :
  propagates Q m -> (forall a, Q a -> propagates R (k a)) ->
  propagates R (m ≫= k).
Proof.
  intros Hm Hk e w r w' H. rewrite bind_run in H.
  destruct (m e w) as [[a|msg] w1] eqn:Hmw.
  - destruct (Hm e w _ _ Hmw) as [Hs Ha].
    specialize (Hk a Ha e w1 r w' H).
    destruct r as [b|msg].
    + destruct Hk as [Hs' Hb]. split; [|exact Hb].
      eapply steps_trans; eassumption.
    + destruct Hk as (h & c & Hs' & Ht & Hf).
      exists h, c. split; [|auto]. eapply steps_trans; eassumption.
  - inversion H; subst. exact (Hm e w _ _ Hmw).
Qed.

Lemma propagates_weaken {A : Type} (Q Q' : A -> Prop) (m : M A) :
  propagates Q m -> (forall a, Q a -> Q' a) -> propagates Q' m.
Proof.
  intros Hm HQ e w r w' H. specialize (Hm e w r w' H).
  destruct r; [|exact Hm]. destruct Hm. split; auto.
Qed.

Lemma propagates_index {V : Type} (d : dict V) (k : string) (v : V) :
  dict_get d k = Some v -> propagates (eq v) (dict_index d k).
Proof.
  intros Hk. unfold dict_index. rewrite Hk. now apply propagates_ret.
Qed.

Lemma propagates_for_each {A : Type} (l : list A) (body : A -> M unit) :
  (forall x, In x l -> propagates (fun _ => True) (body x)) ->
  propagates (fun _ => True) (for_each l body).
Proof.
  induction l as [|x l IH]; intros Hbody; cbn [for_each].
  - now apply propagates_ret.
  - eapply propagates_bind; [apply Hbody; now left|].
    intros _ _. apply IH. intros y Hy. apply Hbody. now right.
Qed.

Lemma propagates_for_fold {A S : Type} (l : list A) (body : S -> A -> M S)
  (fs : S -> A -> S) :
  (forall s x, In x l -> propagates (eq (fs s x)) (body s x)) ->
  forall s, propagates (eq (fold_left fs l s)) (for_fold l body s).
Proof.
  induction l as [|x l IH]; intros Hbody s; cbn [for_fold fold_left].
  - now apply propagates_ret.
  - eapply propagates_bind; [apply Hbody; now left|].
    intros s' <-. apply IH. intros s0 y Hy. apply Hbody. now right.
Qed.

Ltac prop_base :=
  first [ apply propagates_print
        | apply propagates_lib
        | apply propagates_ask
        | apply propagates_gets
        | apply propagates_modify; reflexivity ].

Lemma propagates_lib_modify (c : call) (f : world -> world) :
  (forall w, trace (f w) = trace w) ->
  propagates (fun _ => True) (lib c;; modify f).
Proof.
  intros Hf. eapply propagates_bind; [apply propagates_lib|].
  intros _ _. now apply propagates_modify.
Qed.

Lemma propagates_object_delete (use_global : bool) :
  propagates (fun _ => True) (object_delete use_global).
Proof.
  unfold object_delete.
  eapply propagates_bind; [apply propagates_lib|]. intros _ _.
  eapply propagates_bind; [apply propagates_ask|]. intros keep _.
  now apply propagates_modify.
Qed.

Lemma propagates_os_path_exists (path : string) :
  propagates (fun _ => True) (os_path_exists path).
Proof.
  unfold os_path_exists.
  eapply propagates_bind; [apply propagates_lib|].
  intros _ _. apply propagates_ask.
Qed.

Lemma propagates_import_gltf (filepath : string) (import_materials : bool) :
  propagates (fun _ => True) (import_gltf filepath import_materials).
Proof.
  unfold import_gltf.
  eapply propagates_bind; [apply propagates_lib|]. intros _ _.
  eapply propagates_bind; [apply propagates_ask|]. intros objs _.
  eapply propagates_bind; [apply propagates_ask|]. intros data _.
  now apply propagates_modify.
Qed.

Lemma propagates_slots_clear (o : object) :
  propagates (fun _ => True) (slots_clear o).
Proof. now apply propagates_lib_modify. Qed.

Lemma propagates_slots_append (o : object) (m : material) :
  propagates (fun _ => True) (slots_append o m).
Proof. now apply propagates_lib_modify. Qed.

Ltac prop_leaf :=
  first [ prop_base
        | apply propagates_object_delete
        | apply propagates_os_path_exists
        | apply propagates_import_gltf
        | apply propagates_slots_clear
        | apply propagates_slots_append ].

Ltac prop_seq :=
  repeat (eapply propagates_bind; [prop_leaf | intros ? _]).

Lemma propagates_images_new name width height fill :
  propagates
    (eq {| img_name := name; img_width := width; img_height := height;
           img_fill := fill |})
    (images_new name width height fill).
Proof. unfold images_new. prop_seq. now apply propagates_ret. Qed.

Lemma propagates_create_pbr_material name color rough metal textures_dict :
  propagates (eq (build_material name color rough metal textures_dict))
    (create_pbr_material name color rough metal textures_dict).
Proof. unfold create_pbr_material. prop_seq. now apply propagates_ret. Qed.

Lemma propagates_generate_textures_for textures t :
  In t (keys COLORS) ->
  propagates (eq (add_textures textures (texture_images t)))
    (generate_textures_for textures t).
Proof.
  intros Ht.
  assert (Hk : exists color rough,
             dict_get COLORS t = Some color /\ dict_get ROUGHNESS t = Some rough).
  { cbn in Ht.
    repeat (destruct Ht as [<- | Ht]; [eexists _, _; split; reflexivity|]).
    destruct Ht. }
  destruct Hk as (color & rough & Hc & Hr).
  unfold generate_textures_for, texture_images. rewrite Hc, Hr.
  unfold create_simple_texture, create_normal_map, create_roughness_texture.
  prop_seq.
  eapply propagates_bind; [apply (propagates_index _ _ _ Hc)|]. intros ? <-.
  eapply propagates_bind; [apply propagates_images_new|]. intros ? <-.
  eapply propagates_bind; [apply propagates_images_new|]. intros ? <-.
  eapply propagates_bind; [apply (propagates_index _ _ _ Hr)|]. intros ? <-.
  eapply propagates_bind; [apply propagates_images_new|]. intros ? <-.
  now apply propagates_ret.
Qed.

Lemma propagates_create_material_for textures materials t m :
  pbr_material textures t = Some m ->
  propagates (eq (add_pbr_material textures materials t))
    (create_material_for textures materials t).
Proof.
  intros Hm. unfold add_pbr_material. rewrite Hm.
  unfold pbr_material in Hm.
  destruct (dict_get textures (t +:+ "_basecolor")) as [bc|] eqn:Hbc;
    [|discriminate].
  destruct (dict_get textures (t +:+ "_normal")) as [n|] eqn:Hn;
    [|discriminate].
  destruct (dict_get textures (t +:+ "_roughness")) as [r|] eqn:Hr;
    [|discriminate].
  destruct (dict_get COLORS t) as [color|] eqn:Hc; [|discriminate].
  destruct (dict_get ROUGHNESS t) as [rough|] eqn:Hro; [|discriminate].
  destruct (dict_get METALLIC t) as [metal|] eqn:Hme; [|discriminate].
  cbn in Hm. injection Hm as <-.
  unfold create_material_for.
  prop_seq.
  eapply propagates_bind; [apply (propagates_index _ _ _ Hbc)|]. intros ? <-.
  eapply propagates_bind; [apply (propagates_index _ _ _ Hn)|]. intros ? <-.
  eapply propagates_bind; [apply (propagates_index _ _ _ Hr)|]. intros ? <-.
  eapply propagates_bind; [apply (propagates_index _ _ _ Hc)|]. intros ? <-.
  eapply propagates_bind; [apply (propagates_index _ _ _ Hro)|]. intros ? <-.
  eapply propagates_bind; [apply (propagates_index _ _ _ Hme)|]. intros ? <-.
  eapply propagates_bind; [apply propagates_create_pbr_material|].
  intros ? <-. now apply propagates_ret.
Qed.

Lemma propagates_assign_object materials o :
  propagates (fun _ => True) (assign_object materials o).
Proof.
  unfold assign_object.
  destruct (negb (String.eqb (obj_type o) "MESH")); [now apply propagates_ret|].
  destruct (match_mesh_name MESH_MATERIAL_MAP (obj_name o)) as [t|].
  - prop_seq. unfold dict_mem.
    destruct (truthy t); cbn [andb]; [|now apply propagates_ret].
    destruct (dict_get materials t) as [m|] eqn:Hm; [|now apply propagates_ret].
    prop_seq.
    eapply propagates_bind; [apply (propagates_index _ _ _ Hm)|]. intros ? <-.
    prop_leaf.
  - apply (propagates_bind (fun _ => True)); [now apply propagates_ret|].
    intros _ _. now apply propagates_ret.
Qed.

Lemma propagates_main : propagates (fun _ => True) main.
Proof.
  unfold main, select_all.
  do 6 (eapply propagates_bind; [prop_leaf | intros _ _]).
  eapply propagates_bind; [prop_leaf | intros found _].
  destruct (negb found).
  { prop_seq. now apply propagates_ret. }
  unfold main_after_check, os_makedirs, select_all, export_gltf.
  prop_seq.
  eapply propagates_bind.
  { apply propagates_for_fold with
      (fs := fun d t => add_textures d (texture_images t)).
    intros s x Hx. now apply propagates_generate_textures_for. }
  intros textures <-. fold pbr_textures. prop_seq.
  eapply propagates_bind.
  { apply propagates_for_fold with (fs := add_pbr_material pbr_textures).
    intros s x Hx.
    assert (Hk : exists m, pbr_material pbr_textures x = Some m).
    { cbn in Hx.
      repeat (destruct Hx as [<- | Hx]; [eexists; vm_compute; reflexivity|]).
      destruct Hx. }
    destruct Hk as [m Hm]. now apply (propagates_create_material_for _ _ _ m). }
  intros materials <-. prop_seq.
  eapply propagates_bind.
  { apply propagates_for_each. intros o _. apply propagates_assign_object. }
  intros _ _. prop_seq. now apply propagates_ret.
Qed.


Lemma bind_lib_cases {B : Type} (k : unit -> M B) (e : env) (w : world)
  (c : call) :
  (lib c ≫= k) e w =
    match fault e (trace w) c with
    | Some msg => (Raised msg, log (Called c) w)
    | None => k tt e (log (Called c) w)
    end.
Proof.
  rewrite bind_run. unfold lib. now destruct (fault e (trace w) c).
Qed.

Ltac run_pure :=
  repeat first
    [ rewrite bind_assoc
    | rewrite bind_print
    | rewrite bind_modify
    | rewrite bind_ret
    | rewrite bind_ask
    | rewrite bind_gets ].

Lemma main_missing_input e w r w' :
  path_exists e INPUT_GLB = false ->
  main e w = (r, w') ->
  (exists t, trace w' = trace w ++ t /\ Forall before_check t) /\
  images w' = images w /\ materials_db w' = materials_db w /\
  data_materials w' = data_materials w /\
  (r = Returned None \/ exists msg, r = Raised msg).
Proof.
  intros Hex.
  unfold main, select_all, object_delete, os_path_exists.
  run_pure. rewrite bind_lib_cases.
  destruct (fault e _ (SelectAll "SELECT")) as [msg|].
  { intros H. inversion H; subst; clear H. fields.
    split; [|eauto 6]. eexists. rewrite <- !app_assoc. split; [reflexivity|].
    cbn [app]. repeat constructor. }
  run_pure. rewrite bind_lib_cases.
  destruct (fault e _ (ObjectDelete false)) as [msg|].
  { intros H. inversion H; subst; clear H. fields.
    split; [|eauto 6]. eexists. rewrite <- !app_assoc. split; [reflexivity|].
    cbn [app]. repeat constructor. }
  run_pure. rewrite bind_lib_cases.
  destruct (fault e _ (PathExists INPUT_GLB)) as [msg|].
  { intros H. inversion H; subst; clear H. fields.
    split; [|eauto 6]. eexists. rewrite <- !app_assoc. split; [reflexivity|].
    cbn [app]. repeat constructor. }
  run_pure. rewrite Hex. cbn [negb]. run_pure.
  intros H. inversion H; subst; clear H. fields.
  split; [|eauto 6]. eexists. rewrite <- !app_assoc. split; [reflexivity|].
  cbn [app]. repeat constructor.
Qed.

Lemma main_missing_input_no_fault e w :
  no_fault e -> path_exists e INPUT_GLB = false ->
  exists w',
    main e w = (Returned None, w') /\
    trace w' = trace w ++
      [ Printed (nl +:+ repeat_str "=" 80);
        Printed "PBR MATERIAL SETUP FOR MOTHER & BABY 3D MODEL";
        Printed (repeat_str "=" 80 +:+ nl);
        Printed "[1/5] Importing GLB model...";
        Called (SelectAll "SELECT");
        Called (ObjectDelete false);
        Called (PathExists INPUT_GLB);
        Printed "ERROR: Input file not found: assets/motherandbaby3dmodel.glb" ].
Proof.
  intros Hnf Hex.
  unfold main, select_all, object_delete, os_path_exists.
  run Hnf. rewrite Hex. cbn [negb]. run Hnf.
  eexists. split; [reflexivity|]. fields. rewrite <- !app_assoc. reflexivity.
Qed.

(** ** The assignment loop on the data-blocks *)






(** ** The assignment loop *)


Lemma match_mesh_name_value (table : dict string) (name t : string) :
  match_mesh_name table name = Some t -> In t (map snd table).
Proof.
  induction table as [|[k v] rest IH]; simpl; [discriminate|].
  destruct (contains (lower k) (lower name)).
  - intros [= ->]. now left.
  - intros H. right. auto.
Qed.

(** With the materials that [main] creates, every mesh whose name matches a
    key is given the material of the matched type. *)
Lemma matched_mesh_selected (o : object) (t : string) :
  obj_type o = "MESH" ->
  match_mesh_name MESH_MATERIAL_MAP (obj_name o) = Some t ->
  exists m, selected_material pbr_materials o = Some m /\ mat_name m = t /\
            In m created_materials.
Proof.
  intros Hmesh Hmatch. unfold selected_material.
  rewrite Hmesh, Hmatch. cbn [String.eqb].
  apply match_mesh_name_value in Hmatch.
  change (String.eqb "MESH" "MESH") with true. cbv iota.
  cbn in Hmatch.
  repeat (destruct Hmatch as [<- | Hmatch];
          [eexists; split; [vm_compute; reflexivity|];
           split; [reflexivity|]; vm_compute; tauto|]).
  destruct Hmatch.
Qed.




(** ** Error handling and the order of the pipeline *)

Lemma script_handler (e : env) (w : world) :
  match main e w with
  | (Returned _, w') =>
      script e w
        = (Returned tt, log (Printed "SUCCESS: PBR setup complete.") w')
  | (Raised msg, w') =>
      script e w
        = (Returned tt, log Traceback (log (Printed ("ERROR: " +:+ msg)) w'))
  end.
Proof.
  unfold script. destruct (main e w) as [[r|msg] w']; reflexivity.
Qed.

(** C6: the entry point catches every exception of [main], prints its
    message and a stack trace; [main] checks one thing, the existence of the
    input file, and when the file is missing it prints an error and returns
    before any import, image, material, slot or export call; nothing else
    is checked (with the file present and no call raising, [main] runs to
    the export for every scene), and an exception is never handled inside
    [main]: it is the exception of the last call made, nothing runs after
    that call, and no call that raised is made again. *)
Theorem error_handling :
  (forall e w,
     match main e w with
     | (Returned _, w') =>
         script e w
           = (Returned tt, log (Printed "SUCCESS: PBR setup complete.") w')
     | (Raised msg, w') =>
         script e w
           = (Returned tt,
              log Traceback (log (Printed ("ERROR: " +:+ msg)) w'))
     end) /\
  (forall e w r w',
     path_exists e INPUT_GLB = false ->
     main e w = (r, w') ->
     (exists t, trace w' = trace w ++ t /\ Forall before_check t) /\
     images w' = images w /\ materials_db w' = materials_db w /\
     data_materials w' = data_materials w /\
     (r = Returned None \/ exists msg, r = Raised msg)) /\
  (forall e w,
     no_fault e -> path_exists e INPUT_GLB = false ->
     exists w',
       main e w = (Returned None, w') /\
       trace w' = trace w ++
         [ Printed (nl +:+ repeat_str "=" 80);
           Printed "PBR MATERIAL SETUP FOR MOTHER & BABY 3D MODEL";
           Printed (repeat_str "=" 80 +:+ nl);
           Printed "[1/5] Importing GLB model...";
           Called (SelectAll "SELECT");
           Called (ObjectDelete false);
           Called (PathExists INPUT_GLB);
           Printed
             "ERROR: Input file not found: assets/motherandbaby3dmodel.glb" ]) /\
  (forall e w,
     no_fault e -> path_exists e INPUT_GLB = true ->
     exists w', main e w = (Returned (Some (abspath e OUTPUT_GLB)), w')) /\
  propagates (fun _ => True) main.
Proof.
  split; [exact script_handler|].
  split; [exact main_missing_input|].
  split; [exact main_missing_input_no_fault|].
  split; [|exact propagates_main].
  intros e w Hnf Hex.
  destruct (main_full e w Hnf Hex) as (w' & Hrun & _). now exists w'.
Qed.

Lemma error_handling_witness :
  no_fault (sample_env false) /\
  path_exists (sample_env false) INPUT_GLB = false /\
  exists w', main (sample_env false) empty_world = (Returned None, w').
Proof.
  split; [intros h c; reflexivity|]. split; [reflexivity|].
  destruct (proj1 (proj2 (proj2 error_handling)) (sample_env false) empty_world)
    as (w' & Hrun & _); [intros h c; reflexivity | reflexivity |].
  exists w'. exact Hrun.
Defined.




(** * Further properties *)

(** ** The matcher *)

Lemma lower_char_upper_char (c : ascii) :
  lower_char (upper_char c) = lower_char c.
Proof. destruct c as [[] [] [] [] [] [] [] []]; reflexivity. Qed.

Lemma lower_char_idem (c : ascii) : lower_char (lower_char c) = lower_char c.
Proof. destruct c as [[] [] [] [] [] [] [] []]; reflexivity. Qed.

Lemma lower_upper (s : string) : lower (upper s) = lower s.
Proof.
  induction s as [|c s IH]; [reflexivity|].
  simpl. now rewrite lower_char_upper_char, IH.
Qed.

Lemma lower_idem (s : string) : lower (lower s) = lower s.
Proof.
  induction s as [|c s IH]; [reflexivity|].
  simpl. now rewrite lower_char_idem, IH.
Qed.

Lemma match_mesh_name_lower_eq (table : dict string) (n1 n2 : string) :
  lower n1 = lower n2 ->
  match_mesh_name table n1 = match_mesh_name table n2.
Proof.
  intros H. induction table as [|[k v] rest IH]; simpl; [reflexivity|].
  now rewrite H, IH.
Qed.

Lemma same_letter_ascii (c d : ascii) :
  is_ascii c = true -> same_letter c d = true -> is_ascii d = true.
Proof.
  assert (H : forallb (fun c => forallb (fun d =>
                implb (is_ascii c && same_letter c d) (is_ascii d))
                all_ascii) all_ascii = true)
    by (vm_compute; reflexivity).
  rewrite forallb_forall in H. specialize (H c (all_ascii_complete c)).
  rewrite forallb_forall in H. specialize (H d (all_ascii_complete d)).
  intros Hc Hcd. now rewrite Hc, Hcd in H.
Qed.

Lemma same_letters_ascii (s t : string) :
  ascii_text s = true -> same_letters s t = true -> ascii_text t = true.
Proof.
  unfold ascii_text. revert t.
  induction s as [|c s IH]; intros [|d t]; cbn [same_letters all_chars];
    try congruence.
  rewrite !andb_true_iff. intros [Hc Hs] [Hcd Hst].
  split; [exact (same_letter_ascii c d Hc Hcd) | now apply IH].
Qed.

(** X2: the matcher does not look at the case of the letters of an ASCII
    object name: the upper-cased name, the lower-cased name and every name
    that differs from it in letter case only get the same result. *)
Theorem matcher_ignores_case (name : string)
  (Hname : ascii_text name = true) :
  match_mesh_name MESH_MATERIAL_MAP (upper name)
    = match_mesh_name MESH_MATERIAL_MAP name /\
  match_mesh_name MESH_MATERIAL_MAP (lower name)
    = match_mesh_name MESH_MATERIAL_MAP name /\
  forall name',
    same_letters name name' = true ->
    ascii_text name' = true /\
    match_mesh_name MESH_MATERIAL_MAP name'
      = match_mesh_name MESH_MATERIAL_MAP name.
Proof.
  split; [|split].
  - apply match_mesh_name_lower_eq, lower_upper.
  - apply match_mesh_name_lower_eq, lower_idem.
  - intros name' Hs. split; [exact (same_letters_ascii _ _ Hname Hs)|].
    apply match_mesh_name_lower_eq. symmetry. now apply lower_same_letters.
Qed.

Lemma matcher_ignores_case_witness :
  match_mesh_name MESH_MATERIAL_MAP (upper "Mother_Skin_001")
    = match_mesh_name MESH_MATERIAL_MAP "Mother_Skin_001" /\
  match_mesh_name MESH_MATERIAL_MAP "mOTHER_sKIN_001"
    = match_mesh_name MESH_MATERIAL_MAP "Mother_Skin_001".
Proof.
  destruct (matcher_ignores_case "Mother_Skin_001" eq_refl) as (Hu & _ & Hs).
  split; [exact Hu|]. exact (proj2 (Hs "mOTHER_sKIN_001" eq_refl)).
Defined.

(** X1: the matcher returns no match or one of saree, hair, mother_skin,
    baby_hair and base, each of them for some name; it never returns
    baby_skin, for any name. *)
Theorem matcher_range :
  (forall name,
     In (match_mesh_name MESH_MATERIAL_MAP name)
        [None; Some "saree"; Some "hair"; Some "mother_skin";
         Some "baby_hair"; Some "base"] /\
     match_mesh_name MESH_MATERIAL_MAP name <> Some "baby_skin") /\
  Forall (fun r => exists name, match_mesh_name MESH_MATERIAL_MAP name = r)
    [None; Some "saree"; Some "hair"; Some "mother_skin"; Some "baby_hair";
     Some "base"].
Proof.
  split.
  - intros name. split; [|apply baby_skin_never_matched].
    destruct (match_mesh_name MESH_MATERIAL_MAP name) as [t|] eqn:Hm;
      [|now left].
    pose proof (baby_skin_never_matched name) as Hb. rewrite Hm in Hb.
    apply match_mesh_name_value in Hm. cbn in Hm.
    repeat (destruct Hm as [<- | Hm];
            [first [cbn; tauto | exfalso; now apply Hb]|]).
    destruct Hm.
  - repeat constructor.
    + now exists "Cube".
    + now exists "Saree_Drape".
    + now exists "Hair".
    + now exists "Body".
    + now exists "Baby_Head".
    + now exists "Pedestal".
Qed.

Lemma contains_extend (k s a b : string) :
  contains k s = true -> contains k (a +:+ s +:+ b) = true.
Proof.
  rewrite !contains_spec. intros (x & y & ->).
  exists (a +:+ x), (y +:+ b). now rewrite !sapp_assoc.
Qed.

(** X3: a name that contains a name matched by MESH_MATERIAL_MAP is
    matched too (maybe to another material): adding text around a name never
    unmatches it. *)
Theorem matcher_upward_closed (name a b t : string) :
  match_mesh_name MESH_MATERIAL_MAP name = Some t ->
  exists t', match_mesh_name MESH_MATERIAL_MAP (a +:+ name +:+ b) = Some t'.
Proof.
  generalize MESH_MATERIAL_MAP as table.
  induction table as [|[k v] rest IH]; simpl; [discriminate|].
  destruct (contains (lower k) (lower name)) eqn:Hk.
  - intros _. rewrite !lower_app, (contains_extend _ _ _ _ Hk). eauto.
  - intros H. destruct (contains (lower k) (lower (a +:+ name +:+ b))); eauto.
Qed.

Lemma matcher_upward_closed_witness :
  exists t', match_mesh_name MESH_MATERIAL_MAP ("hair_" +:+ "skin" +:+ "_01")
             = Some t'.
Proof.
  apply (matcher_upward_closed "skin" "hair_" "_01" "mother_skin").
  reflexivity.
Defined.

Lemma startswith_app_foreign (k : string) :
  forall t suf,
    k <> "" -> disjoint_chars k suf = true ->
    startswith k (t +:+ suf) = startswith k t.
Proof.
  induction k as [|a k IH]; intros t suf Hne Hd; [congruence|].
  destruct t as [|b t].
  - rewrite sapp_nil_l. destruct suf as [|c suf]; [reflexivity|].
    simpl in Hd |- *. apply andb_true_iff in Hd as [Hc _].
    apply negb_true_iff in Hc. apply orb_false_iff in Hc as [Hc _].
    rewrite Ascii.eqb_sym, Hc. reflexivity.
  - rewrite sapp_cons. simpl. destruct (Ascii.eqb a b); [|reflexivity].
    simpl. destruct k as [|a' k']; [reflexivity|].
    apply IH; [discriminate|].
    clear -Hd. induction suf as [|c suf IHs]; [reflexivity|].
    simpl in Hd |- *. apply andb_true_iff in Hd as [Hc Hrest].
    apply negb_true_iff in Hc. apply orb_false_iff in Hc as [_ Hc].
    rewrite Hc. simpl. now apply IHs.
Qed.

Lemma contains_foreign (k suf : string) :
  k <> "" -> disjoint_chars k suf = true -> contains k suf = false.
Proof.
  intros Hne. induction suf as [|c suf IH]; intros Hd.
  - simpl. destruct k; [congruence | reflexivity].
  - simpl in Hd. apply andb_true_iff in Hd as [Hc Hrest].
    simpl. rewrite (IH Hrest), orb_false_r.
    destruct k as [|a k]; [congruence|]. simpl.
    apply negb_true_iff in Hc. simpl in Hc.
    apply orb_false_iff in Hc as [Hc _]. rewrite Ascii.eqb_sym, Hc. reflexivity.
Qed.

Lemma contains_app_foreign (k s suf : string) :
  k <> "" -> disjoint_chars k suf = true ->
  contains k (s +:+ suf) = contains k s.
Proof.
  intros Hne Hd. induction s as [|c s IH].
  - rewrite sapp_nil_l, (contains_foreign k suf Hne Hd).
    simpl. destruct k; [congruence | reflexivity].
  - rewrite sapp_cons. simpl. rewrite IH. f_equal.
    change (String c (s +:+ suf)) with (String c s +:+ suf).
    now apply startswith_app_foreign.
Qed.

Lemma disjoint_chars_suffix (k suf : string) :
  all_chars (fun c => negb (is_suffix_char c)) k = true ->
  all_chars is_suffix_char suf = true ->
  disjoint_chars k suf = true.
Proof.
  intros Hk. induction suf as [|c suf IH]; [reflexivity|].
  simpl. intros Hs. apply andb_true_iff in Hs as [Hc Hrest].
  rewrite (IH Hrest), andb_true_r. apply negb_true_iff.
  clear -Hk Hc. induction k as [|a k IHk]; [reflexivity|].
  simpl in Hk |- *. apply andb_true_iff in Hk as [Ha Hk].
  rewrite (IHk Hk), orb_false_r.
  destruct (Ascii.eqb c a) eqn:E; [|reflexivity].
  apply Ascii.eqb_eq in E. subst a. rewrite Hc in Ha. discriminate.
Qed.

Lemma lower_suffix_chars (suf : string) :
  all_chars is_suffix_char suf = true -> lower suf = suf.
Proof.
  induction suf as [|c suf IH]; [reflexivity|].
  simpl. intros H. apply andb_true_iff in H as [Hc Hrest].
  rewrite (IH Hrest). f_equal.
  revert Hc. destruct c as [[] [] [] [] [] [] [] []]; vm_compute; congruence.
Qed.

Lemma match_mesh_name_foreign_suffix (table : dict string)
  (name suf : string) :
  lower suf = suf ->
  Forall (fun kv : string * string =>
            lower (fst kv) <> "" /\ disjoint_chars (lower (fst kv)) suf = true)
         table ->
  match_mesh_name table (name +:+ suf) = match_mesh_name table name.
Proof.
  intros Hlow Hkeys.
  induction Hkeys as [|[k v] rest [Hne Hk] _ IH]; [reflexivity|].
  cbn [match_mesh_name]. cbn [fst] in Hne, Hk.
  rewrite IH, lower_app, Hlow, (contains_app_foreign _ _ _ Hne Hk).
  reflexivity.
Qed.

(** X4: a suffix of digits and dots, such as the .001 of a duplicated
    object, does not change the material a name is matched to. *)
Theorem matcher_ignores_numeric_suffix (name suf : string)
  (Hsuf : all_chars is_suffix_char suf = true) :
  match_mesh_name MESH_MATERIAL_MAP (name +:+ suf)
    = match_mesh_name MESH_MATERIAL_MAP name.
Proof.
  apply match_mesh_name_foreign_suffix; [now apply lower_suffix_chars|].
  unfold MESH_MATERIAL_MAP.
  repeat (constructor;
          [split; [discriminate |
                   apply disjoint_chars_suffix; [reflexivity | exact Hsuf]]|]).
  constructor.
Qed.

Lemma matcher_ignores_numeric_suffix_witness :
  match_mesh_name MESH_MATERIAL_MAP ("Mother_Skin" +:+ ".001")
    = match_mesh_name MESH_MATERIAL_MAP "Mother_Skin".
Proof. apply matcher_ignores_numeric_suffix. reflexivity. Defined.

(** ** Materials, the assignment loop and [main] *)

(** X5: the node tree of a material is well formed for every dict of
    textures: node 0 is the Principled BSDF, node 1 the output, linked BSDF
    to Surface; every link joins existing nodes; a texture that is present
    gets an image node linked to its socket (the normal map through a
    NormalMap node), one that is absent gets none. *)
Theorem node_tree_well_formed (base_color : rgb) (roughness metallic : milli)
  (textures_dict : dict image) :
  let nodes := fst (node_tree base_color roughness metallic textures_dict) in
  let links := snd (node_tree base_color roughness metallic textures_dict) in
  nodes !! 0%nat = Some (BsdfPrincipled base_color 1000%N roughness metallic) /\
  nodes !! 1%nat = Some OutputMaterial /\
  In {| from_node := 0; from_socket := "BSDF";
        to_node := 1; to_socket := "Surface" |} links /\
  length nodes = (2 + has_key textures_dict "basecolor"
                  + 2 * has_key textures_dict "normal"
                  + has_key textures_dict "roughness")%nat /\
  length links = (1 + has_key textures_dict "basecolor"
                  + 2 * has_key textures_dict "normal"
                  + has_key textures_dict "roughness")%nat /\
  Forall (fun l => (from_node l < length nodes)%nat /\
                   (to_node l < length nodes)%nat) links /\
  (forall img, dict_get textures_dict "basecolor" = Some img ->
     exists i, nodes !! i = Some (TexImage img "sRGB") /\
       In {| from_node := i; from_socket := "Color";
             to_node := 0; to_socket := "Base Color" |} links) /\
  (forall img, dict_get textures_dict "normal" = Some img ->
     exists i, nodes !! i = Some (TexImage img "Non-Color") /\
       nodes !! (S i) = Some (NormalMap 800%N) /\
       In {| from_node := i; from_socket := "Color";
             to_node := S i; to_socket := "Color" |} links /\
       In {| from_node := S i; from_socket := "Normal";
             to_node := 0; to_socket := "Normal" |} links) /\
  (forall img, dict_get textures_dict "roughness" = Some img ->
     exists i, nodes !! i = Some (TexImage img "Non-Color") /\
       In {| from_node := i; from_socket := "Color";
             to_node := 0; to_socket := "Roughness" |} links).
Proof.
  unfold node_tree, has_key.
  destruct (dict_get textures_dict "basecolor") as [bc|];
  destruct (dict_get textures_dict "normal") as [n|];
  destruct (dict_get textures_dict "roughness") as [r|]; cbn.
  all: repeat split; try reflexivity; try tauto;
       try (repeat constructor; cbn; lia);
       try discriminate.
  all: intros img [= <-].
  all: first [ exists 2%nat; cbn; tauto | exists 3%nat; cbn; tauto
             | exists 4%nat; cbn; tauto | exists 5%nat; cbn; tauto ].
Qed.

(** X7: when the input file is missing, the scene has already been
    cleared before the check (the objects that the delete removes are gone,
    the ones it leaves behind stay), and the entry point still prints the
    success message after the error message. *)
Theorem missing_input_clears_scene_and_prints_success (e : env) (w : world)
  (Hnf : no_fault e) (Hex : path_exists e INPUT_GLB = false) :
  exists w',
    script e w = (Returned tt, w') /\
    objects w' = List.filter (survives e) (objects w) /\
    data_materials w' = data_materials w /\
    calls_of (trace w') = calls_of (trace w) ++
      [SelectAll "SELECT"; ObjectDelete false; PathExists INPUT_GLB] /\
    trace w' = trace w ++
      [ Printed (nl +:+ repeat_str "=" 80);
        Printed "PBR MATERIAL SETUP FOR MOTHER & BABY 3D MODEL";
        Printed (repeat_str "=" 80 +:+ nl);
        Printed "[1/5] Importing GLB model...";
        Called (SelectAll "SELECT");
        Called (ObjectDelete false);
        Called (PathExists INPUT_GLB);
        Printed "ERROR: Input file not found: assets/motherandbaby3dmodel.glb";
        Printed "SUCCESS: PBR setup complete." ].
Proof.
  unfold script, main, select_all, object_delete, os_path_exists.
  run Hnf. rewrite Hex. cbn [negb]. run Hnf.
  unfold mret, M_ret, print.
  eexists. split; [reflexivity|]. fields.
  split; [reflexivity|]. split; [reflexivity|]. split.
  - rewrite !calls_of_app. cbn [calls_of app]. rewrite !app_nil_r.
    rewrite <- !app_assoc. reflexivity.
  - rewrite <- !app_assoc. reflexivity.
Qed.

Lemma missing_input_clears_scene_and_prints_success_witness :
  exists w',
    script (hidden_env false) hidden_world = (Returned tt, w') /\
    objects w' = [hidden_object].
Proof.
  destruct (missing_input_clears_scene_and_prints_success
              (hidden_env false) hidden_world)
    as (w' & Hrun & Hobj & _); [intros h c; reflexivity | reflexivity |].
  exists w'. split; assumption.
Defined.

(** X8: clearing and appending are two calls; when the append raises after
    the clear went through, the mesh is left without any material. *)
Theorem append_failure_leaves_mesh_without_slots (e : env)
  (materials : dict material) (o : object) (m : material) (msg : string)
  (w : world)
  (Hsel : selected_material materials o = Some m)
  (Hclear : forall h, fault e h (SlotsClear (data_ref o)) = None)
  (Happend : forall h,
      fault e h (SlotsAppend (data_ref o) (mat_name m)) = Some msg) :
  exists w',
    assign_object materials o e w = (Raised msg, w') /\
    slots w' o = [] /\
    exists w'',
      assign_materials materials [o] e w = (Raised msg, w'') /\ slots w'' o = [].
Proof.
  assert (Hobj : exists w', assign_object materials o e w = (Raised msg, w') /\
                            slots w' o = []).
  { unfold selected_material in Hsel. unfold assign_object.
    destruct (String.eqb (obj_type o) "MESH"); [|discriminate]. cbn [negb].
    destruct (match_mesh_name MESH_MATERIAL_MAP (obj_name o)) as [t|];
      [|discriminate].
    unfold dict_mem. destruct (truthy t); [|discriminate].
    rewrite Hsel. cbn [andb].
    unfold slots_clear, slots_append. run_pure.
    rewrite bind_lib_cases, Hclear. run_pure.
    rewrite (bind_index _ _ _ _ _ _ Hsel).
    rewrite bind_lib_cases, Happend.
    eexists. split; [reflexivity|].
    unfold slots, slots_of. fields. now rewrite lookup_insert_eq. }
  destruct Hobj as (w' & Hrun & Hs). exists w'. split; [exact Hrun|].
  split; [exact Hs|]. exists w'. split; [|exact Hs].
  unfold assign_materials. cbn [for_each]. rewrite bind_run, Hrun. reflexivity.
Qed.

Lemma append_failure_leaves_mesh_without_slots_witness :
  exists w',
    assign_object pbr_materials skin_object append_fails_env shared_world
      = (Raised "RuntimeError", w') /\
    slots shared_world skin_object = [imported_material] /\
    slots w' skin_object = [].
Proof.
  assert (Hsel : exists m, selected_material pbr_materials skin_object = Some m
                           /\ mat_name m = "mother_skin").
  { eexists. split; vm_compute; reflexivity. }
  destruct Hsel as (m & Hsel & Hname).
  destruct (append_failure_leaves_mesh_without_slots append_fails_env
              pbr_materials skin_object m "RuntimeError" shared_world Hsel)
    as (w' & Hrun & Hs & _).
  - intros h. reflexivity.
  - intros h. reflexivity.
  - exists w'. split; [exact Hrun|]. split; [reflexivity | exact Hs].
Defined.

Lemma bind_returned_inv {A B : Type} (m : M A) (k : A -> M B) e w b w' :
  (m ≫= k) e w = (Returned b, w') ->
  exists a w1, m e w = (Returned a, w1) /\ k a e w1 = (Returned b, w').
Proof.
  rewrite bind_run. destruct (m e w) as [[a|msg] w1]; [|discriminate].
  intros H. eauto.
Qed.

Lemma os_path_exists_returned path e w a w1 :
  os_path_exists path e w = (Returned a, w1) -> a = path_exists e path.
Proof.
  unfold os_path_exists. intros H.
  apply bind_returned_inv in H as ([] & w0 & _ & H).
  inversion H. reflexivity.
Qed.

(** X9: whenever [main] returns, it returns the absolute output path when
    the input file exists and None when it does not, whatever else
    happened. *)
Theorem main_result (e : env) (w w' : world) (r : option string)
  (Hrun : main e w = (Returned r, w')) :
  r = if path_exists e INPUT_GLB then Some (abspath e OUTPUT_GLB) else None.
Proof.
  unfold main in Hrun.
  do 6 (apply bind_returned_inv in Hrun as (? & ? & _ & Hrun)).
  apply bind_returned_inv in Hrun as (found & w1 & Hfound & Hrun).
  apply os_path_exists_returned in Hfound. subst found.
  destruct (path_exists e INPUT_GLB); cbn [negb] in Hrun.
  - unfold main_after_check in Hrun.
    do 12 (apply bind_returned_inv in Hrun as (? & ? & _ & Hrun)).
    apply bind_returned_inv in Hrun as (p & w2 & Hp & Hrun).
    inversion Hp; subst p.
    do 13 (apply bind_returned_inv in Hrun as (? & ? & _ & Hrun)).
    inversion Hrun. reflexivity.
  - apply bind_returned_inv in Hrun as (? & ? & _ & Hrun).
    inversion Hrun. reflexivity.
Qed.

Lemma main_result_witness :
  Some "/work/assets/motherandbaby3dmodel_pbr.glb" =
  (if path_exists (sample_env true) INPUT_GLB
   then Some (abspath (sample_env true) OUTPUT_GLB) else None).
Proof.
  apply (main_result (sample_env true) empty_world
           (snd (main (sample_env true) empty_world))).
  vm_compute. reflexivity.
Defined.

Lemma lib_frame c e w r w' :
  lib c e w = (r, w') ->
  objects w' = objects w /\ images w' = images w /\
  materials_db w' = materials_db w /\ data_materials w' = data_materials w.
Proof.
  unfold lib. destruct (fault e (trace w) c); intros H; inversion H; auto.
Qed.

Lemma assign_object_frame materials o e w r w' :
  assign_object materials o e w = (r, w') ->
  objects w' = objects w /\ images w' = images w /\
  materials_db w' = materials_db w.
Proof.
  unfold assign_object.
  destruct (negb (String.eqb (obj_type o) "MESH"));
    [intros H; inversion H; auto|].
  destruct (match_mesh_name MESH_MATERIAL_MAP (obj_name o)) as [t|].
  - rewrite bind_print. unfold dict_mem.
    destruct (truthy t); cbn [andb]; [|intros H; inversion H; auto].
    destruct (dict_get materials t) as [m|] eqn:Hm;
      [|intros H; inversion H; auto].
    unfold slots_clear, slots_append. run_pure.
    rewrite bind_lib_cases.
    destruct (fault e _ (SlotsClear (data_ref o)));
      [intros H; inversion H; auto|].
    run_pure. rewrite (bind_index _ _ _ _ _ _ Hm). rewrite bind_lib_cases.
    destruct (fault e _ (SlotsAppend (data_ref o) (mat_name m)));
      intros H; inversion H; auto.
  - rewrite bind_ret. intros H; inversion H; auto.
Qed.

(** X12: the assignment loop never adds or removes an object, an image or
    a material, whether it returns or raises. *)
Theorem assignment_never_touches_objects_images_materials
  (materials : dict material) (objs : list object) :
  forall e w r w',
    assign_materials materials objs e w = (r, w') ->
    objects w' = objects w /\ images w' = images w /\
    materials_db w' = materials_db w.
Proof.
  unfold assign_materials.
  induction objs as [|o objs IH]; intros e w r w' H.
  - inversion H. auto.
  - cbn [for_each] in H. rewrite bind_run in H.
    destruct (assign_object materials o e w) as [[[]|msg] w1] eqn:H1.
    + apply assign_object_frame in H1 as (Ho & Hi & Hm).
      apply IH in H as (Ho' & Hi' & Hm'). repeat split; congruence.
    + inversion H; subst. now apply assign_object_frame in H1.
Qed.

Lemma assignment_never_touches_objects_images_materials_witness :
  objects (snd (assign_materials pbr_materials (objects shared_world)
                  append_fails_env shared_world)) = objects shared_world.
Proof.
  refine (proj1 (assignment_never_touches_objects_images_materials
                   pbr_materials (objects shared_world) append_fails_env
                   shared_world
                   (fst (assign_materials pbr_materials (objects shared_world)
                           append_fails_env shared_world)) _ _)).
  apply surjective_pairing.
Defined.

Lemma assign_fold_lookup materials objs k :
  (forall d, fold_left (assign_step materials) objs d !! k = d !! k) \/
  (exists m, forall d,
     fold_left (assign_step materials) objs d !! k = Some [m]).
Proof.
  induction objs as [|x objs IH] using rev_ind; [now left|].
  destruct (selected_material materials x) as [m|] eqn:Hx.
  - assert (Hstep : forall d,
      fold_left (assign_step materials) (objs ++ [x]) d
      = <[data_ref x := [m]]> (fold_left (assign_step materials) objs d)).
    { intros d. rewrite fold_left_app. cbn [fold_left].
      unfold assign_step at 1. now rewrite Hx. }
    destruct (decide (data_ref x = k)) as [<-|Hne].
    + right. exists m. intros d. rewrite Hstep. apply lookup_insert_eq.
    + destruct IH as [IH|[m' IH]]; [left|right; exists m']; intros d;
        rewrite Hstep, lookup_insert_ne by exact Hne; apply IH.
  - assert (Hstep : forall d,
      fold_left (assign_step materials) (objs ++ [x]) d
      = fold_left (assign_step materials) objs d).
    { intros d. rewrite fold_left_app. cbn [fold_left].
      unfold assign_step at 1. now rewrite Hx. }
    destruct IH as [IH|[m' IH]]; [left|right; exists m']; intros d;
      rewrite Hstep; apply IH.
Qed.

(** X11: running the assignment loop a second time changes no slot. *)
Theorem assignment_idempotent (materials : dict material)
  (objs : list object) (e : env) (w w1 w2 : world)
  (Hrun1 : assign_materials materials objs e w = (Returned tt, w1))
  (Hrun2 : assign_materials materials objs e w1 = (Returned tt, w2)) :
  data_materials w2 = data_materials w1 /\
  forall o, slots w2 o = slots w1 o.
Proof.
  apply assign_materials_returns in Hrun1 as (Hd1 & _).
  apply assign_materials_returns in Hrun2 as (Hd2 & _).
  assert (Heq : data_materials w2 = data_materials w1).
  { rewrite Hd2, Hd1. apply map_eq. intros k.
    destruct (assign_fold_lookup materials objs k) as [H|[m H]].
    - now rewrite H.
    - now rewrite !H. }
  split; [exact Heq|]. intros o. unfold slots. now rewrite Heq.
Qed.

Lemma assignment_idempotent_witness :
  let w1 := snd (assign_materials pbr_materials sample_objects
                   (sample_env true) shared_world) in
  let w2 := snd (assign_materials pbr_materials sample_objects
                   (sample_env true) w1) in
  data_materials w2 = data_materials w1.
Proof.
  cbv zeta.
  refine (proj1 (assignment_idempotent pbr_materials sample_objects
                   (sample_env true) shared_world _ _ _ _)).
  - vm_compute. reflexivity.
  - vm_compute. reflexivity.
Defined.




Lemma calls_of_flat_map {A : Type} (f : A -> list event) (l : list A) (c : call) :
  In c (calls_of (flat_map f l)) -> exists x, In x l /\ In c (calls_of (f x)).
Proof.
  induction l as [|x l IH]; cbn [flat_map calls_of]; [intros []|].
  rewrite calls_of_app, in_app_iff. intros [H|H].
  - exists x. split; [now left | exact H].
  - destruct (IH H) as (y & Hy & Hc). exists y. split; [now right | exact Hc].
Qed.

(** X13: [main] creates the baby_skin material and never appends it to any
    mesh, whatever the imported scene. *)
Theorem main_never_assigns_baby_skin (e : env) (w : world)
  (Hnf : no_fault e) (Hex : path_exists e INPUT_GLB = true) :
  exists w' new,
    main e w = (Returned (Some (abspath e OUTPUT_GLB)), w') /\
    calls_of (trace w') = calls_of (trace w) ++ new /\
    In (MaterialsNew "baby_skin") new /\
    forall d, ~ In (SlotsAppend d "baby_skin") new.
Proof.
  destruct (main_full e w Hnf Hex) as (w' & Hrun & Hc & _).
  eexists w', _. split; [exact Hrun|]. split; [exact Hc|]. split.
  - cbn [app]. do 5 right. apply in_app_iff. right.
    apply in_app_iff. left. cbn. tauto.
  - intros d Hin. cbn [app] in Hin.
    do 5 (destruct Hin as [Hin|Hin]; [discriminate|]).
    apply in_app_iff in Hin as [Hin|Hin].
    { apply in_map_iff in Hin as (img & Himg & _). discriminate. }
    apply in_app_iff in Hin as [Hin|Hin].
    { apply in_map_iff in Hin as (t & Ht & _). discriminate. }
    apply in_app_iff in Hin as [Hin|Hin].
    2:{ cbn in Hin. destruct Hin as [Hin|[Hin|[]]]; discriminate. }
    apply calls_of_flat_map in Hin as (o & _ & Hin).
    unfold assign_events in Hin.
    destruct (String.eqb (obj_type o) "MESH") eqn:E; [|destruct Hin].
    apply String.eqb_eq in E.
    destruct (match_mesh_name MESH_MATERIAL_MAP (obj_name o)) as [t|] eqn:Hm;
      [|destruct Hin].
    destruct (matched_mesh_selected o t E Hm) as (m & Hsel & Hname & _).
    rewrite Hsel in Hin. cbn in Hin.
    destruct Hin as [Hin|[Hin|[]]]; [discriminate|].
    injection Hin as _ Hn. rewrite Hname in Hn. subst t.
    exact (baby_skin_never_matched _ Hm).
Qed.

Lemma main_never_assigns_baby_skin_witness :
  exists w', main (sample_env true) empty_world
             = (Returned (Some "/work/assets/motherandbaby3dmodel_pbr.glb"), w').
Proof.
  destruct (main_never_assigns_baby_skin (sample_env true) empty_world)
    as (w' & new & Hrun & _);
    [intros h c; reflexivity | reflexivity |].
  exists w'. exact Hrun.
Defined.

(** X6: in a session that held no image or material under the script's
    names, every material [main] creates has six nodes and five links, and
    its three image nodes hold images created in the texture step under the
    names <type>_basecolor, <type>_normal and <type>_roughness of its own
    type. *)
Theorem main_wires_each_material_to_its_textures (e : env) (w : world)
  (Hnf : no_fault e) (Hex : path_exists e INPUT_GLB = true)
  (Hfresh : fresh_names w = true) :
  exists w' imgs mats,
    main e w = (Returned (Some (abspath e OUTPUT_GLB)), w') /\
    images w' = images w ++ imgs /\
    materials_db w' = materials_db w ++ mats /\
    map mat_name mats = keys COLORS /\
    Forall (fun m =>
      length (nodes m) = 6%nat /\ length (links m) = 5%nat /\
      forall img cs, In (TexImage img cs) (nodes m) ->
        In img imgs /\
        In (img_name img, cs)
           [ (mat_name m +:+ "_basecolor", "sRGB");
             (mat_name m +:+ "_normal", "Non-Color");
             (mat_name m +:+ "_roughness", "Non-Color") ]) mats.
Proof.
  destruct (main_full e w Hnf Hex) as (w' & Hrun & _ & Hi & Hm & _).
  exists w', (flat_map texture_images (keys COLORS)), created_materials.
  split; [exact Hrun|]. split; [exact Hi|]. split; [exact Hm|].
  split; [vm_compute; reflexivity|].
  apply List.Forall_forall. intros m Hmem. vm_compute in Hmem.
  repeat (destruct Hmem as [<- | Hmem];
    [ split; [reflexivity|]; split; [reflexivity|];
      intros img cs Hin; cbn in Hin;
      repeat (destruct Hin as [Hin|Hin];
              [try discriminate; injection Hin as <- <-;
               split; vm_compute; tauto|]);
      destruct Hin |]).
  destruct Hmem.
Qed.

Lemma main_wires_each_material_to_its_textures_witness :
  exists w', main (sample_env true) empty_world
             = (Returned (Some "/work/assets/motherandbaby3dmodel_pbr.glb"), w').
Proof.
  destruct (main_wires_each_material_to_its_textures (sample_env true)
              empty_world) as (w' & imgs & mats & Hrun & _);
    [intros h c; reflexivity | reflexivity | reflexivity |].
  exists w'. exact Hrun.
Defined.

(** ** The array of the header *)

Lemma parse_hex_skip (c : ascii) (s : string) :
  Ascii.eqb c "0" = false ->
  parse_hex_literals (String c s) = parse_hex_literals s.
Proof.
  intros H. destruct s as [|c1 [|h [|l rest]]]; simpl; rewrite ?H; reflexivity.
Qed.

Lemma parse_hex_literal (b : byte) (rest : string) :
  parse_hex_literals ("0x" +:+ format_02x b +:+ rest)
    = b :: parse_hex_literals rest.
Proof. destruct b; reflexivity. Qed.

(** X14: reading the literals of the written array back gives the buffer,
    for every buffer. *)
Theorem array_text_round_trip (n : nat) (data : list byte) :
  forall i : nat,
    parse_hex_literals (SimpleGen.write_bytes n i data "") = data.
Proof.
  induction data as [|b rest IH]; intros i; [reflexivity|].
  rewrite write_bytes_cons. cbv zeta. rewrite write_bytes_app.
  unfold SimpleGen.write.
  destruct (i <? n - 1)%nat; [destruct ((i + 1) mod 16 =? 0)%nat|];
    rewrite ?sapp_nil_l, !sapp_assoc, parse_hex_literal.
  - f_equal. change (parse_hex_literals
      (String "," (String "010" (String " " (String " "
         (SimpleGen.write_bytes n (S i) rest ""))))) = rest).
    rewrite !parse_hex_skip by reflexivity. apply IH.
  - f_equal. change (parse_hex_literals
      (String "," (String " " (SimpleGen.write_bytes n (S i) rest ""))) = rest).
    rewrite !parse_hex_skip by reflexivity. apply IH.
  - f_equal. apply IH.
Qed.

Lemma count_char_app (c : ascii) (s t : string) :
  count_char c (s +:+ t) = (count_char c s + count_char c t)%nat.
Proof.
  induction s as [|a s IH]; [reflexivity|].
  rewrite sapp_cons. simpl. rewrite IH. lia.
Qed.

Lemma count_char_literal (c : ascii) (b : byte) (rest : string) :
  is_hex_digit c = false -> Ascii.eqb c "x" = false ->
  count_char c ("0x" +:+ format_02x b +:+ rest) = count_char c rest.
Proof.
  intros Hh Hx.
  destruct (format_02x_hex b) as (h & l & -> & Hh' & Hl').
  change (count_char c (String "0" (String "x" (String h (String l rest))))
          = count_char c rest).
  cbn [count_char].
  assert (E : forall d, is_hex_digit d = true -> Ascii.eqb d c = false).
  { intros d Hd. destruct (Ascii.eqb d c) eqn:E; [|reflexivity].
    apply Ascii.eqb_eq in E. congruence. }
  rewrite (E "0"%char eq_refl), (E h Hh'), (E l Hl').
  rewrite Ascii.eqb_sym in Hx. rewrite Hx. reflexivity.
Qed.

Lemma div16_succ (i : nat) :
  (S i / 16 = i / 16 + (if (i + 1) mod 16 =? 0 then 1 else 0))%nat.
Proof.
  replace (i + 1)%nat with (S i) by lia.
  pose proof (Nat.div_mod_eq (S i) 16). pose proof (Nat.div_mod_eq i 16).
  pose proof (Nat.mod_upper_bound i 16 ltac:(lia)).
  pose proof (Nat.mod_upper_bound (S i) 16 ltac:(lia)).
  destruct (S i mod 16 =? 0)%nat eqn:Hm;
    [apply Nat.eqb_eq in Hm | apply Nat.eqb_neq in Hm]; lia.
Qed.

Lemma write_bytes_separators (n : nat) (data : list byte) :
  forall i : nat,
    (i + length data = n)%nat ->
    count_char "," (SimpleGen.write_bytes n i data "") = (length data - 1)%nat /\
    count_char "010" (SimpleGen.write_bytes n i data "")
      = ((n - 1) / 16 - i / 16)%nat.
Proof.
  induction data as [|b rest IH]; intros i Hi.
  - cbn [length] in Hi. split; [reflexivity|].
    cbn [SimpleGen.write_bytes count_char].
    assert ((n - 1) / 16 <= i / 16)%nat; [|lia].
    apply Nat.Div0.div_le_mono. lia.
  - cbn [length] in *. destruct (IH (S i) ltac:(lia)) as [IHc IHn].
    rewrite write_bytes_cons. cbv zeta. rewrite write_bytes_app.
    unfold SimpleGen.write.
    pose proof (div16_succ i) as Hdiv.
    destruct (i <? n - 1)%nat eqn:Hlt;
      [apply Nat.ltb_lt in Hlt | apply Nat.ltb_ge in Hlt].
    + assert (S i / 16 <= (n - 1) / 16)%nat
        by (apply Nat.Div0.div_le_mono; lia).
      destruct ((i + 1) mod 16 =? 0)%nat;
        rewrite ?sapp_nil_l, !sapp_assoc, !count_char_literal by reflexivity;
        rewrite !count_char_app, IHc, IHn;
        cbn [count_char Ascii.eqb Bool.eqb nl];
        split; lia.
    + rewrite ?sapp_nil_l, !sapp_assoc, !count_char_literal by reflexivity.
      rewrite IHc, IHn. split; [lia|].
      assert ((n - 1) / 16 <= i / 16)%nat
        by (apply Nat.Div0.div_le_mono; lia).
      assert ((n - 1) / 16 <= S i / 16)%nat
        by (apply Nat.Div0.div_le_mono; lia).
      lia.
Qed.

(** X15: for every buffer the array holds one literal per byte, one comma
    between two literals and none after the last, and a line break after
    every sixteenth literal that is not the last. *)
Theorem array_text_separators (data : list byte) :
  let text := SimpleGen.write_bytes (length data) 0 data "" in
  count_char "," text = (length data - 1)%nat /\
  count_char "010" text = ((length data - 1) / 16)%nat /\
  count_hex_literals text = length data.
Proof.
  cbv zeta.
  destruct (write_bytes_separators (length data) data 0%nat eq_refl) as [Hc Hn].
  split; [exact Hc|]. split; [|apply write_bytes_count].
  rewrite Hn. rewrite Nat.Div0.div_0_l. lia.
Qed.

(** ** Header files and include guards *)

Lemma slength_app (s t : string) :
  String.length (s +:+ t) = (String.length s + String.length t)%nat.
Proof.
  induction s as [|a s IH]; [reflexivity|].
  rewrite sapp_cons. simpl. now rewrite IH.
Qed.

Lemma sapp_inj_r (s : string) :
  forall a b, a +:+ s = b +:+ s -> a = b.
Proof.
  induction a as [|x a IH]; intros [|y b] H.
  - reflexivity.
  - apply (f_equal String.length) in H.
    rewrite sapp_nil_l, sapp_cons in H. simpl in H.
    rewrite slength_app in H. lia.
  - apply (f_equal String.length) in H.
    rewrite sapp_nil_l, sapp_cons in H. simpl in H.
    rewrite slength_app in H. lia.
  - rewrite !sapp_cons in H. injection H as -> H. f_equal. now apply IH.
Qed.

Lemma upper_char_lower_char (c : ascii) :
  upper_char (lower_char c) = upper_char c.
Proof. destruct c as [[] [] [] [] [] [] [] []]; reflexivity. Qed.

Lemma upper_lower (s : string) : upper (lower s) = upper s.
Proof.
  induction s as [|c s IH]; [reflexivity|].
  simpl. now rewrite upper_char_lower_char, IH.
Qed.

Lemma upper_same_letters (s t : string) :
  upper s = upper t <-> same_letters s t = true.
Proof.
  rewrite <- lower_same_letters. split; intros H.
  - rewrite <- (lower_upper s), <- (lower_upper t). now rewrite H.
  - rewrite <- (upper_lower s), <- (upper_lower t). now rewrite H.
Qed.

(** X17: two ASCII model names get the same include guard exactly when they
    differ in the case of their letters only. *)
Theorem guard_depends_on_case_folded_name (a b : string)
  (Ha : ascii_text a = true) (Hb : ascii_text b = true) :
  SimpleGen.guard_of a = SimpleGen.guard_of b <-> same_letters a b = true.
Proof.
  unfold SimpleGen.guard_of. rewrite <- upper_same_letters. split.
  - apply sapp_inj_r.
  - now intros ->.
Qed.

Lemma guard_depends_on_case_folded_name_witness :
  SimpleGen.guard_of "Anemia_Model" = SimpleGen.guard_of "anemia_model" /\
  SimpleGen.guard_of "anemia_model" <> SimpleGen.guard_of "anemia_mode1".
Proof.
  split.
  - now apply (guard_depends_on_case_folded_name "Anemia_Model" "anemia_model").
  - intros H.
    apply (guard_depends_on_case_folded_name "anemia_model" "anemia_mode1")
      in H; [discriminate | reflexivity | reflexivity].
Defined.

(** ** A failed run *)

Lemma no_export_app (t1 t2 : list event) :
  no_export t1 -> no_export t2 -> no_export (t1 ++ t2).
Proof. unfold no_export. rewrite forallb_app. now intros -> ->. Qed.

Lemma quiet_ret {A : Type} (a : A) : quiet (mret a).
Proof.
  intros e w r w' H. inversion H; subst. exists [].
  now rewrite app_nil_r.
Qed.

Lemma quiet_print (s : string) : quiet (print s).
Proof. intros e w r w' H. inversion H; subst. now exists [Printed s]. Qed.

Lemma quiet_lib (c : call) : is_export (Called c) = false -> quiet (lib c).
Proof.
  intros Hc e w r w' H. unfold lib in H.
  exists [Called c]. unfold no_export. cbn [forallb]. rewrite Hc.
  destruct (fault e (trace w) c); inversion H; subst; auto.
Qed.

Lemma quiet_modify (f : world -> world) :
  (forall w, trace (f w) = trace w) -> quiet (modify f).
Proof.
  intros Hf e w r w' H. inversion H; subst. exists [].
  now rewrite Hf, app_nil_r.
Qed.

Lemma quiet_ask {A : Type} (f : env -> A) : quiet (ask f).
Proof.
  intros e w r w' H. inversion H; subst. exists []. now rewrite app_nil_r.
Qed.

Lemma quiet_gets {A : Type} (f : world -> A) : quiet (gets f).
Proof.
  intros e w r w' H. inversion H; subst. exists []. now rewrite app_nil_r.
Qed.

Lemma quiet_index {V : Type} (d : dict V) (k : string) : quiet (dict_index d k).
Proof.
  unfold dict_index. destruct (dict_get d k); [apply quiet_ret|].
  intros e w r w' H. inversion H; subst. exists []. now rewrite app_nil_r.
Qed.

Lemma quiet_bind {A B : Type} (m : M A) (k : A -> M B) :
  quiet m -> (forall a, quiet (k a)) -> quiet (m ≫= k).
Proof.
  intros Hm Hk e w r w' H. rewrite bind_run in H.
  destruct (m e w) as [[a|msg] w1] eqn:Hmw.
  - destruct (Hm e w _ _ Hmw) as (t1 & Ht1 & Hn1).
    destruct (Hk a e w1 _ _ H) as (t2 & Ht2 & Hn2).
    exists (t1 ++ t2). rewrite Ht2, Ht1, app_assoc.
    split; [reflexivity | now apply no_export_app].
  - inversion H; subst. exact (Hm e w _ _ Hmw).
Qed.

Lemma quiet_for_each {A : Type} (l : list A) (body : A -> M unit) :
  (forall x, quiet (body x)) -> quiet (for_each l body).
Proof.
  intros Hb. induction l as [|x l IH]; cbn [for_each]; [apply quiet_ret|].
  apply quiet_bind; [apply Hb | intros _; exact IH].
Qed.

Lemma quiet_for_fold {A S : Type} (l : list A) (body : S -> A -> M S) :
  (forall s x, quiet (body s x)) -> forall s, quiet (for_fold l body s).
Proof.
  intros Hb. induction l as [|x l IH]; intros s; cbn [for_fold];
    [apply quiet_ret|].
  apply quiet_bind; [apply Hb | intros s'; apply IH].
Qed.

Ltac quiet_step :=
  first [ apply quiet_print
        | apply quiet_ret
        | apply quiet_ask
        | apply quiet_gets
        | apply quiet_index
        | apply quiet_lib; reflexivity
        | apply quiet_modify; reflexivity
        | apply quiet_bind; [|intros ?] ].

Ltac quiet_auto := repeat quiet_step.

Lemma quiet_generate_textures_for textures t :
  quiet (generate_textures_for textures t).
Proof.
  unfold generate_textures_for, create_simple_texture, create_normal_map,
    create_roughness_texture, images_new. quiet_auto.
Qed.

Lemma quiet_create_material_for textures materials t :
  quiet (create_material_for textures materials t).
Proof. unfold create_material_for, create_pbr_material. quiet_auto. Qed.

Lemma quiet_assign_object materials o : quiet (assign_object materials o).
Proof.
  unfold assign_object.
  destruct (negb (String.eqb (obj_type o) "MESH")); [apply quiet_ret|].
  apply quiet_bind.
  - destruct (match_mesh_name MESH_MATERIAL_MAP (obj_name o)); quiet_auto.
  - intros _.
    destruct (match_mesh_name MESH_MATERIAL_MAP (obj_name o)) as [t|];
      [|apply quiet_ret].
    destruct (truthy t && dict_mem t materials); [|apply quiet_ret].
    unfold slots_clear, slots_append. quiet_auto.
Qed.

Lemma export_last_of_quiet {A : Type} (m : M A) : quiet m -> export_last m.
Proof.
  intros Hm e w r w' H. destruct (Hm e w r w' H) as (t & Ht & Hn).
  exists t. split; [exact Ht|]. destruct r; auto.
Qed.

Lemma export_last_bind {A B : Type} (m : M A) (k : A -> M B) :
  quiet m -> (forall a, export_last (k a)) -> export_last (m ≫= k).
Proof.
  intros Hm Hk e w r w' H. rewrite bind_run in H.
  destruct (m e w) as [[a|msg] w1] eqn:Hmw.
  - destruct (Hm e w _ _ Hmw) as (t1 & Ht1 & Hn1).
    destruct (Hk a e w1 _ _ H) as (t2 & Ht2 & Hr).
    exists (t1 ++ t2). rewrite Ht2, Ht1, app_assoc. split; [reflexivity|].
    destruct r as [b|msg]; [exact I|].
    destruct Hr as [Hn2 | (t0 & p & -> & Hn0 & Hf)].
    + left. now apply no_export_app.
    + right. exists (t1 ++ t0), p. rewrite app_assoc.
      split; [reflexivity|]. split; [now apply no_export_app|].
      rewrite app_assoc, <- Ht1. exact Hf.
  - inversion H; subst. destruct (Hm e w _ _ Hmw) as (t & Ht & Hn).
    exists t. auto.
Qed.

Ltac export_step :=
  apply export_last_bind;
  [ first [ apply quiet_print | apply quiet_ask | apply quiet_gets
          | apply quiet_lib; reflexivity
          | apply quiet_modify; reflexivity
          | unfold object_delete, os_path_exists, import_gltf; quiet_auto ]
  | intros ? ].

Lemma export_last_main_after_check : export_last main_after_check.
Proof.
  unfold main_after_check, os_makedirs, select_all.
  do 4 export_step.
  apply export_last_bind.
  { apply quiet_for_fold. intros s x. apply quiet_generate_textures_for. }
  intros textures. export_step.
  apply export_last_bind.
  { apply quiet_for_fold. intros s x. apply quiet_create_material_for. }
  intros materials. do 2 export_step.
  apply export_last_bind.
  { apply quiet_for_each. intros o. apply quiet_assign_object. }
  intros _. do 2 export_step.
  apply export_last_bind; [apply quiet_ask|]. intros export_path.
  intros e w r w' H. unfold export_gltf in H. rewrite bind_lib_cases in H.
  destruct (fault e (trace w) (ExportGltf export_path)) as [msg|] eqn:Hf.
  - inversion H; subst. exists [Called (ExportGltf export_path)].
    split; [reflexivity|]. right. exists [], export_path.
    rewrite app_nil_r. repeat split; auto.
  - revert H. run_pure. intros H. inversion H; subst.
    eexists. split; [|exact I]. fields. rewrite <- !app_assoc. reflexivity.
Qed.

(** X18: when [main] raises, the exporter has not been called, unless the
    exception is that of the export call itself, which is then the last
    event. *)
Theorem failed_run_exports_nothing (e : env) (w w' : world) (msg : string)
  (Hrun : main e w = (Raised msg, w')) :
  exists t,
    trace w' = trace w ++ t /\
    (no_export t \/
     exists t0 p, t = t0 ++ [Called (ExportGltf p)] /\ no_export t0 /\
                  fault e (trace w ++ t0) (ExportGltf p) = Some msg).
Proof.
  assert (Hmain : export_last main).
  { unfold main, select_all.
    do 6 export_step.
    apply export_last_bind;
      [unfold os_path_exists; quiet_auto | intros found].
    destruct (negb found).
    - apply export_last_of_quiet. quiet_auto.
    - apply export_last_main_after_check. }
  exact (Hmain e w _ w' Hrun).
Qed.

Lemma failed_run_exports_nothing_witness :
  exists t,
    trace (snd (main append_fails_env empty_world)) = trace empty_world ++ t /\
    (no_export t \/
     exists t0 p, t = t0 ++ [Called (ExportGltf p)] /\ no_export t0 /\
                  fault append_fails_env (trace empty_world ++ t0)
                    (ExportGltf p) = Some "RuntimeError").
Proof.
  apply (failed_run_exports_nothing append_fails_env empty_world
           (snd (main append_fails_env empty_world)) "RuntimeError").
  vm_compute. reflexivity.
Defined.
